(** * mat2py: the numeric core of [precision.py]

    A shallow embedding of the methods of class [Precision] that carry the
    numeric semantics of the package: [quantile], [prctile], the overloads of
    [unique], the two overloads of [overlap1d], [overlap2d], [zero_or_one],
    the overloads of [datenum], and [dtrange].

    Conventions of the embedding.
    - Module [Binary64] holds [quantile] and [prctile] on the numbers the
      interpreter computes with: Python ints of any size, binary64 floats
      with their rounding, infinities and NaNs, and the arrays numpy builds
      from a list, by element type.  What the two methods return is stated
      and proved there.
    - Module [Precision] reads the same two methods in exact arithmetic
      (floats as the rationals [Q] they stand for).  It serves the
      statements that do not depend on how a float is rounded: which path a
      call takes, and how [prctile] hands over to [quantile].
    - A call either returns ([Ok]) or raises ([Raise]); a failing [assert]
      raises [AssertionError]; [try ... except Exception] catches whatever
      the protected block raises.
    - The numpy primitives the methods call ([sort], [argsort], [linspace],
      [interp], [unique], [searchsorted], [nonzero]) and the [datetime]
      types are defined from their documented behaviour, in modules [Numpy],
      [Binary64] and [Datetime].
    - The overloads that [multipledispatch] selects by argument type carry the
      argument types in their names. *)

From Stdlib Require Import String.
From Stdlib Require Import Floats.
From Stdlib Require Import List Bool Arith ZArith QArith Qfield Lia Lqa.
From Stdlib Require Import Permutation Sorted.
Import ListNotations.

Set Implicit Arguments.

(* ------------------------------------------------------------------ *)
(** * Python calls: values, exceptions, generators *)

Module Py.

Inductive exn : Set :=
| AssertionError
| TypeError
| ValueError
| IndexError
| OverflowError
| ZeroDivisionError.

Inductive result (T : Type) : Type :=
| Ok (v : T)
| Raise (e : exn).

Arguments Ok {T} v.
Arguments Raise {T} e.

Definition bind {T U : Type} (c : result T) (k : T -> result U) : result U :=
  match c with
  | Ok v => k v
  | Raise e => Raise e
  end.

(** [assert cond] *)
Definition assert (cond : bool) : result unit :=
  if cond then Ok tt else Raise AssertionError.

(** [try: body  except Exception: print(...)] followed by [return dflt]:
    the handler only prints, so control falls through to the statement
    after the [try], which returns [dflt]. *)
Definition try_except {T : Type} (body : result T) (dflt : T) : result T :=
  match body with
  | Ok v => Ok v
  | Raise _ => Ok dflt
  end.

(** [enumerate(l)] *)
Definition enumerate {T : Type} (l : list T) : list (nat * T) :=
  combine (seq 0 (length l)) l.

(** What one [next(g)] on a generator in state [G] gives: a yielded item and
    the generator's new state, [StopIteration], or an exception. *)
Inductive step (G T : Type) : Type :=
| Yield (item : T) (g : G)
| Stop
| Throw (e : exn).

Arguments Yield {G T} item g.
Arguments Stop {G T}.
Arguments Throw {G T} e.

(** [list(g)]: call [next] until the generator stops; an exception other
    than [StopIteration] propagates.  [fuel] bounds the number of [next]
    calls; [None] means the bound was too small. *)
Fixpoint drain {G T : Type} (next : G -> step G T) (fuel : nat) (g : G)
  : option (result (list T)) :=
  match fuel with
  | O => None
  | S fuel' =>
      match next g with
      | Stop => Some (Ok [])
      | Throw e => Some (Raise e)
      | Yield item g' =>
          match drain next fuel' g' with
          | Some (Ok items) => Some (Ok (item :: items))
          | other => other
          end
      end
  end.

End Py.

Import Py.

Declare Scope py_scope.
Delimit Scope py_scope with py.
Notation "x <- c ;; k" := (Py.bind c (fun x => k))
  (at level 61, c at next level, right associativity) : py_scope.
Notation "c ;;; k" := (Py.bind c (fun _ => k))
  (at level 61, right associativity) : py_scope.

(* ------------------------------------------------------------------ *)
(** * The numpy primitives *)

Module Numpy.

Section Ordered.

Variable A : Type.
Variable leb : A -> A -> bool.

(** [numpy.sort]: ascending order.  Insertion keeps equal keys in their
    original relative order. *)
Fixpoint insert (x : A) (l : list A) : list A :=
  match l with
  | [] => [x]
  | y :: l' => if leb x y then x :: l else y :: insert x l'
  end.

Definition sort (l : list A) : list A := fold_right insert [] l.

(** The order that [leb] decides. *)
Definition le (x y : A) : Prop := leb x y = true.

(** [a.searchsorted(v, side='left')] for one needle: the first index [i]
    with [v <= a[i]] ([len(a)] when there is none). *)
Fixpoint searchsorted_left (a : list A) (v : A) : nat :=
  match a with
  | [] => 0
  | x :: a' => if leb v x then 0 else S (searchsorted_left a' v)
  end.

(** [a.searchsorted(v, side='right')] for one needle: the first index [i]
    with [v < a[i]]. *)
Fixpoint searchsorted_right (a : list A) (v : A) : nat :=
  match a with
  | [] => 0
  | x :: a' => if leb x v then S (searchsorted_right a' v) else 0
  end.

Variable Aeq_dec : forall x y : A, {x = y} + {x <> y}.

(** The first position of [x] in [l] ([len(l)] when absent). *)
Fixpoint index_of (x : A) (l : list A) : nat :=
  match l with
  | [] => 0
  | y :: l' => if Aeq_dec x y then 0 else S (index_of x l')
  end.

(** [numpy.unique(ar, return_index=True, return_inverse=True,
    return_counts=True)] on the flattened array.  Whatever the order of the
    keyword arguments, the tuple is
    (sorted unique values, index of the first occurrence of each unique
    value, index into the unique values of each element, number of
    occurrences of each unique value). *)
Definition unique (ar : list A)
  : list A * list nat * list nat * list nat :=
  let u := sort (nodup Aeq_dec ar) in
  (u,
   map (fun x => index_of x ar) u,
   map (fun x => index_of x u) ar,
   map (fun x => count_occ Aeq_dec ar x) u).

End Ordered.

(** The order in which [argsort] puts the pairs (position, value). *)
Definition by_value {A : Type} (leb : A -> A -> bool) (p q : nat * A) : bool :=
  leb (snd p) (snd q).

(** [numpy.argsort]: the indices that sort the array. *)
Definition argsort {A : Type} (leb : A -> A -> bool) (l : list A) : list nat :=
  map fst (sort (by_value leb) (Py.enumerate l)).

(** Fancy indexing [a[idx]] with in-range indices. *)
Definition take {A : Type} (a : list A) (idx : list nat) : list A :=
  flat_map (fun i => match nth_error a i with
                     | Some x => [x]
                     | None => []
                     end) idx.

(** [mask.nonzero()[0]]: the positions that hold [True]. *)
Definition nonzero (mask : list bool) : list nat :=
  map fst (filter snd (Py.enumerate mask)).

(** [(right - left > 0)], element by element, on index arrays. *)
Definition range_nonempty (right left : list nat) : list bool :=
  map (fun rl => (0 <? Z.of_nat (fst rl) - Z.of_nat (snd rl))%Z)
      (combine right left).

Local Open Scope Q_scope.

Definition Qofnat (n : nat) : Q := inject_Z (Z.of_nat n).

(** [numpy.linspace(start, stop, num)] with the end point included: [num]
    evenly spaced samples [i * step + start], [step = (stop - start) / (num - 1)]
    (for [num = 1] the only sample is [start]). *)
Definition linspace (start stop : Q) (num : nat) : list Q :=
  let div := (num - 1)%nat in
  let delta := stop - start in
  let step := if (0 <? div)%nat then delta / Qofnat div else delta in
  map (fun i => Qofnat i * step + start) (seq 0 num).

Definition Qltb (x y : Q) : bool := negb (Qle_bool y x).

(** The scan of [numpy.interp] to the right of the sample [(x0, y0)], for
    [x0 <= x]: the first interval [x0 <= x < x1] decides; a hit on the sample
    point returns its value, otherwise the straight line through the two
    samples is evaluated.  From the last sample on the value is [fp[-1]]. *)
Fixpoint interp_from (x x0 y0 : Q) (xp fp : list Q) : Q :=
  match xp, fp with
  | x1 :: xp', y1 :: fp' =>
      if Qltb x x1 then
        if Qeq_bool x0 x then y0
        else (y1 - y0) / (x1 - x0) * (x - x0) + y0
      else interp_from x x1 y1 xp' fp'
  | _, _ => y0
  end.

(** [numpy.interp(x, xp, fp)] for a scalar [x], increasing [xp] and the
    default [left = fp[0]], [right = fp[-1]]. *)
Definition interp (x : Q) (xp fp : list Q) : result Q :=
  if negb (length xp =? length fp)%nat then Raise ValueError
  else match xp, fp with
       | x0 :: xp', y0 :: fp' =>
           Ok (if Qltb x x0 then y0 else interp_from x x0 y0 xp' fp')
       | _, _ => Raise ValueError
       end.

End Numpy.

(* ------------------------------------------------------------------ *)
(** * class Precision *)

Module Precision.

Local Open Scope py_scope.

(** ** quantile, prctile *)

(** The lists [quantile] and [prctile] can be handed, in exact arithmetic:
    numbers that numpy reads as a float64 array, or strings, which it takes
    as an array but cannot read as float64.  The lists of numbers that it
    cannot read either (an int beyond 64 bits) are in module [Binary64]. *)
Inductive pylist : Type :=
| NumList (l : list Q)
| StrList (l : list string).

Definition len (x : pylist) : nat :=
  match x with
  | NumList l => length l
  | StrList l => length l
  end.

Inductive ndarray : Type :=
| Float64 (l : list Q)
| Unicode (l : list string).

(** [numpy.sort(x)] on a Python list. *)
Definition np_sort (x : pylist) : ndarray :=
  match x with
  | NumList l => Float64 (Numpy.sort Qle_bool l)
  | StrList l => Unicode (Numpy.sort String.leb l)
  end.

(** [numpy.interp(q, xp, y)]: [y] must be readable as float64. *)
Definition np_interp (q : Q) (xp : list Q) (y : ndarray) : result Q :=
  match y with
  | Float64 fp => Numpy.interp q xp fp
  | Unicode _ => Raise TypeError
  end.

(** The plotting positions handed to [numpy.interp]:
    [numpy.linspace(1 / (2 * n), (2 * n - 1) / (2 * n), n)]. *)
Definition positions (n : nat) : list Q :=
  let n' := Numpy.Qofnat n in
  Numpy.linspace (1 / (2 * n')) ((2 * n' - 1) / (2 * n')) n.

(** [Precision.quantile(x, q)] *)
Definition quantile (x : pylist) (q : Q) : result Q :=
  assert (1 <=? len x)%nat ;;;
  assert (Qle_bool 0 q) ;;;
  try_except
    (let n := len x in
     let y := np_sort x in
     np_interp q (positions n) y)
    0.

(** [Precision.prctile(x, p)] *)
Definition prctile (x : pylist) (p : Q) : result Q :=
  assert (1 <=? len x)%nat ;;;
  assert (Qle_bool 1 p) ;;;
  try_except (quantile x (p / 100)) 0.

(** Arrays that hold equal numbers cell by cell. *)
Definition same_numbers (l l' : list Q) : Prop := Forall2 Qeq l l'.

(** ** unique, overlap1d, overlap2d *)

(** Integer arrays of the shapes the methods build: [numpy.array(0)],
    [numpy.array([...])] and [numpy.array([[...]])]. *)
Inductive intarray : Type :=
| Scalar (n : nat)
| Vector (l : list nat)
| Matrix (rows : list (list nat)).

(** [x.flatten()] *)
Definition flatten (x : intarray) : list nat :=
  match x with
  | Scalar n => [n]
  | Vector l => l
  | Matrix rows => concat rows
  end.

Section Elements.

Variable A : Type.
Variable Aeq_dec : forall x y : A, {x = y} + {x <> y}.
Variable leb : A -> A -> bool.

(** Python [x == y] *)
Definition eqb (x y : A) : bool := if Aeq_dec x y then true else false.

(** [x in y] *)
Definition contains (y : list A) (x : A) : bool :=
  if in_dec Aeq_dec x y then true else false.

(** [lambda y, x: y.append(x) or y if x not in y else y] *)
Definition unique_step (y : list A) (x : A) : list A :=
  if negb (contains y x) then y ++ [x] else y.

(** [Precision.unique(l)] on a list: [reduce(unique_step, l, [])]. *)
Definition unique_list (l : list A) : result (list A) :=
  assert (1 <=? length l)%nat ;;;
  Ok (fold_left unique_step l []).

(** The four cells [x[0][0]], ..., [x[0][3]] of the array that
    [Precision.unique] returns on a [numpy.ndarray]; they hold what the code
    names [a], [b], [c] and [d]. *)
Record unique_stats : Type := mk_unique_stats {
  distinct_values : list A;
  first_index : intarray;
  inverse_index : intarray;
  multiplicity : intarray
}.

(** [Precision.unique(l)] on a [numpy.ndarray] (given flattened; [l.size] is
    its length). *)
Definition unique_ndarray (l : list A) : result unique_stats :=
  assert (1 <=? length l)%nat ;;;
  let '(a, b, c, d) := Numpy.unique leb Aeq_dec l in
  if (1 <? length a)%nat then
    Ok (mk_unique_stats a (Matrix [b]) (Vector c) (Vector d))
  else
    Ok (mk_unique_stats a (Vector [0%nat]) (Scalar 0) (Scalar 0)).

(** The loop of [overlap1d] over [enumerate(zip(v0, v1))], with [r] the list
    built so far.  An index outside [v0] or [v1] raises inside the [try];
    the handler prints and the method returns [r] as it stands. *)
Fixpoint overlap1d_loop (v0 v1 : list A) (it : list (nat * (A * A)))
  (r : list (nat * (A * A))) : list (nat * (A * A)) :=
  match it with
  | [] => r
  | (i, j) :: it' =>
      match nth_error v0 i, nth_error v1 i with
      | Some x, Some y =>
          if eqb x y then overlap1d_loop v0 v1 it' (r ++ [(i, j)])
          else overlap1d_loop v0 v1 it' r
      | _, _ => r
      end
  end.

(** The test of the loop on one item [(i, (v0[i], v1[i]))]. *)
Definition agree (e : nat * (A * A)) : bool :=
  eqb (fst (snd e)) (snd (snd e)).

(** [Precision.overlap1d(v0, v1)] *)
Definition overlap1d (v0 v1 : list A) : result (list (nat * (A * A))) :=
  assert (1 <=? length v0)%nat ;;;
  assert (1 <=? length v1)%nat ;;;
  assert (length v0 =? length v1)%nat ;;;
  Ok (overlap1d_loop v0 v1 (enumerate (combine v0 v1)) []).

(** [Precision.overlap1d(v0, v1, n)] has a [yield] in its body: it is a
    generator function.  Its generator is either not started (no statement
    of the body has run), suspended at the [yield] with the rest of [v0] to
    go, or finished. *)
Inductive overlap1d_gen : Type :=
| Created (v0 v1 : list A) (n : Z)
| Suspended (rest v1 : list A)
| Finished.

(** [[p for p, j in enumerate(v1) if i == j]] *)
Definition matches (v1 : list A) (i : A) : list nat :=
  map fst (filter (fun pj => eqb i (snd pj)) (enumerate v1)).

(** The [for i in v0: yield ...] loop, resumed with [rest] to go. *)
Definition overlap1d_resume (rest v1 : list A) : step overlap1d_gen (list nat) :=
  match rest with
  | [] => Stop
  | i :: rest' => Yield (matches v1 i) (Suspended rest' v1)
  end.

(** [next(g)]: the first [next] runs the body from its first statement, the
    three [assert]s included. *)
Definition overlap1d_next (g : overlap1d_gen) : step overlap1d_gen (list nat) :=
  match g with
  | Created v0 v1 _ =>
      match (assert (1 <=? length v0)%nat ;;;
             assert (1 <=? length v1)%nat ;;;
             assert (length v0 =? length v1)%nat) with
      | Raise e => Throw e
      | Ok _ => overlap1d_resume v0 v1
      end
  | Suspended rest v1 => overlap1d_resume rest v1
  | Finished => Stop
  end.

(** The call [Precision.overlap1d(v0, v1, n)]: it builds the generator and
    returns it. *)
Definition overlap1d_n (v0 v1 : list A) (n : Z) : result overlap1d_gen :=
  Ok (Created v0 v1 n).

(** [list(Precision.overlap1d(v0, v1, n))] *)
Definition overlap1d_n_list (v0 v1 : list A) (n : Z)
  : option (result (list (list nat))) :=
  match overlap1d_n v0 v1 n with
  | Ok g => drain overlap1d_next (S (length v0)) g
  | Raise e => Some (Raise e)
  end.

(** [Precision.overlap2d(v0, v1)] *)
Definition overlap2d (v0 v1 : list A) : result (list nat * list nat) :=
  let a1 := Numpy.argsort leb v0 in
  let b1 := Numpy.argsort leb v1 in
  let sort_left_a :=
    map (Numpy.searchsorted_left leb (Numpy.take v0 a1)) (Numpy.take v1 b1) in
  let sort_right_a :=
    map (Numpy.searchsorted_right leb (Numpy.take v0 a1)) (Numpy.take v1 b1) in
  let sort_left_b :=
    map (Numpy.searchsorted_left leb (Numpy.take v1 b1)) (Numpy.take v0 a1) in
  let sort_right_b :=
    map (Numpy.searchsorted_right leb (Numpy.take v1 b1)) (Numpy.take v0 a1) in
  let inds_b := Numpy.nonzero (Numpy.range_nonempty sort_right_a sort_left_a) in
  let inds_a := Numpy.nonzero (Numpy.range_nonempty sort_right_b sort_left_b) in
  Ok (Numpy.take a1 inds_a, Numpy.take b1 inds_b).

(** Both vectors non-empty and of one length: what the three [assert]s of
    the two [overlap1d] overloads let through. *)
Definition accepted (v0 v1 : list A) : Prop :=
  v0 <> [] /\ v1 <> [] /\ length v0 = length v1.

Definition acceptedb (v0 v1 : list A) : bool :=
  (1 <=? length v0)%nat && (1 <=? length v1)%nat && (length v0 =? length v1)%nat.

(** The invariant of a unique-result record for the input [l]: the
    multiplicities add up to the input length, and the inverse index sends
    every position of [l] to a cell of the distinct values that holds the
    same value. *)
Definition stats_consistent (l : list A) (r : unique_stats) : Prop :=
  list_sum (flatten (multiplicity r)) = length l
  /\ forall i x, nth_error l i = Some x ->
       exists k, nth_error (flatten (inverse_index r)) i = Some k
              /\ (k < length (distinct_values r))%nat
              /\ nth_error (distinct_values r) k = Some x.

End Elements.

(** ** unique(l, n), zero_or_one *)

Section Dictionaries.

Variable K : Type.
Variable Keq_dec : forall x y : K, {x = y} + {x <> y}.
Variable V : Type.

(** A Python [dict]: its items in insertion order, every key once. *)
Definition dict : Type := list (K * V).

(** [d[k] = v]: the value of an existing key is replaced where it stands, a
    new key goes to the end. *)
Fixpoint dict_set (d : dict) (k : K) (v : V) : dict :=
  match d with
  | [] => [(k, v)]
  | (k', v') :: d' =>
      if Keq_dec k k' then (k', v) :: d' else (k', v') :: dict_set d' k v
  end.

(** [d.get(k)] *)
Fixpoint dict_get (d : dict) (k : K) : option V :=
  match d with
  | [] => None
  | (k', v') :: d' => if Keq_dec k k' then Some v' else dict_get d' k
  end.

(** [dict(pairs)] *)
Definition dict_of (pairs : list (K * V)) : dict :=
  fold_left (fun d kv => dict_set d (fst kv) (snd kv)) pairs [].

End Dictionaries.

(** [zip(keys, itertools.count(n))]: the counter never runs out, the keys
    decide the length. *)
Fixpoint zip_count {K : Type} (keys : list K) (n : Z) : list (K * Z) :=
  match keys with
  | [] => []
  | k :: keys' => (k, n) :: zip_count keys' (n + 1)
  end.

Section MoreElements.

Variable A : Type.
Variable Aeq_dec : forall x y : A, {x = y} + {x <> y}.
Variable leb : A -> A -> bool.

(** [sorted(set(l))] *)
Definition sorted_set (l : list A) : list A :=
  Numpy.sort leb (nodup Aeq_dec l).

(** [Precision.unique(l, n)] on a list and an int:
    [dict(zip(sorted(set(l)), itertools.count(n)))]. *)
Definition unique_count (l : list A) (n : Z) : result (dict A Z) :=
  assert (1 <=? length l)%nat ;;;
  assert (0 <=? n)%Z ;;;
  Ok (dict_of Aeq_dec (zip_count (sorted_set l) n)).

(** [Precision.zero_or_one(l0, s)]: the loop appends [1 if i == s else 0]
    for every [i] of [list(l0)]. *)
Definition zero_or_one (l0 : list A) (s : A) : result (list Z) :=
  Ok (fold_left (fun r0 i => r0 ++ [if eqb Aeq_dec i s then 1%Z else 0%Z])
                l0 []).

End MoreElements.

End Precision.

(* ------------------------------------------------------------------ *)
(** * The datetime module: dates, datetimes, timedeltas *)

Module Datetime.

Local Open Scope Z_scope.

Definition is_leap (y : Z) : bool :=
  (y mod 4 =? 0) && (negb (y mod 100 =? 0) || (y mod 400 =? 0)).

Definition days_in_month (y m : Z) : Z :=
  match m with
  | 1 | 3 | 5 | 7 | 8 | 10 | 12 => 31
  | 4 | 6 | 9 | 11 => 30
  | 2 => if is_leap y then 29 else 28
  | _ => 0
  end.

(** The days of the year [y] before the first of month [m]. *)
Definition days_before_month (y m : Z) : Z :=
  match m with
  | 1 => 0 | 2 => 31 | 3 => 59 | 4 => 90 | 5 => 120 | 6 => 151
  | 7 => 181 | 8 => 212 | 9 => 243 | 10 => 273 | 11 => 304 | 12 => 334
  | _ => 0
  end
  + (if (2 <? m) && is_leap y then 1 else 0).

(** The days before January 1st of year [y]. *)
Definition days_before_year (y : Z) : Z :=
  let y' := y - 1 in
  y' * 365 + y' / 4 - y' / 100 + y' / 400.

(** A [datetime.date] object. *)
Record date : Set := mk_date { year : Z; month : Z; day : Z }.

Definition valid_date (y m d : Z) : bool :=
  (1 <=? y) && (y <=? 9999) && (1 <=? m) && (m <=? 12)
  && (1 <=? d) && (d <=? days_in_month y m).

(** [datetime.date(y, m, d)] *)
Definition date_new (y m d : Z) : result date :=
  if valid_date y m d then Ok (mk_date y m d) else Raise ValueError.

(** [d.toordinal()]: January 1st of year 1 is day 1. *)
Definition toordinal (d : date) : Z :=
  days_before_year (year d) + days_before_month (year d) (month d) + day d.

(** A naive [datetime.datetime] is the number of microseconds since
    0001-01-01 00:00:00; [datetime.max] is 9999-12-31 23:59:59.999999. *)
Definition us_per_day : Z := 86400000000.

Definition datetime_in_range (t : Z) : bool :=
  (0 <=? t) && (t <? 3652059 * us_per_day).

(** [datetime.datetime(y, m, d)], at midnight. *)
Definition datetime_new (y m d : Z) : result Z :=
  match date_new y m d with
  | Ok dt => Ok ((toordinal dt - 1) * us_per_day)
  | Raise e => Raise e
  end.

(** [datetime.date.fromordinal(n)]: the year is found from the numbers of
    400-, 100-, 4- and 1-year periods elapsed, the month from an estimate
    that is one too large at most. *)
Definition fromordinal (n : Z) : date :=
  let n := n - 1 in
  let n400 := n / 146097 in
  let n := n mod 146097 in
  let n100 := n / 36524 in
  let n := n mod 36524 in
  let n4 := n / 1461 in
  let n := n mod 1461 in
  let n1 := n / 365 in
  let n := n mod 365 in
  let y := n400 * 400 + 1 + n100 * 100 + n4 * 4 + n1 in
  if (n1 =? 4) || (n100 =? 4) then mk_date (y - 1) 12 31
  else
    let m := (n + 50) / 32 in
    let preceding := days_before_month y m in
    if n <? preceding
    then mk_date y (m - 1) (n - (preceding - days_in_month y (m - 1)) + 1)
    else mk_date y m (n - preceding + 1).

(** [t.date()]: the calendar day of a datetime. *)
Definition datetime_date (t : Z) : date := fromordinal (t / us_per_day + 1).

(** [t + delta]: raises [OverflowError] outside the range of datetimes. *)
Definition datetime_add (t delta : Z) : result Z :=
  if datetime_in_range (t + delta) then Ok (t + delta) else Raise OverflowError.

(** The microseconds in one unit of a keyword of [datetime.timedelta]. *)
Definition timedelta_unit (key : string) : option Z :=
  if String.eqb key "days" then Some us_per_day
  else if String.eqb key "seconds" then Some 1000000
  else if String.eqb key "microseconds" then Some 1
  else if String.eqb key "milliseconds" then Some 1000
  else if String.eqb key "minutes" then Some 60000000
  else if String.eqb key "hours" then Some 3600000000
  else if String.eqb key "weeks" then Some (7 * us_per_day)
  else None.

Fixpoint timedelta_sum (items : list (string * Z)) : result Z :=
  match items with
  | [] => Ok 0
  | (key, v) :: items' =>
      match timedelta_unit key with
      | None => Raise TypeError
      | Some u =>
          match timedelta_sum items' with
          | Ok rest => Ok (v * u + rest)
          | Raise e => Raise e
          end
      end
  end.

(** [datetime.timedelta] called with the items of a dict as keyword
    arguments, the values integers: an unknown keyword
    raises [TypeError], more than 999999999 days either way
    [OverflowError]. *)
Definition timedelta_of (items : list (string * Z)) : result Z :=
  match timedelta_sum items with
  | Ok us =>
      if (- 999999999 * us_per_day <=? us) && (us <? 1000000000 * us_per_day)
      then Ok us else Raise OverflowError
  | Raise e => Raise e
  end.

End Datetime.

(* ------------------------------------------------------------------ *)
(** * class Precision: datenum and dtrange *)

Module PrecisionDates.

Import Datetime.
Local Open Scope Z_scope.
Local Open Scope py_scope.

(** [Precision.datenum(d)] on a [datetime.date]. *)
Definition datenum_date (d : date) : result Z :=
  try_except
    (d' <- date_new (year d) (month d) (day d) ;;
     Ok (toordinal d' + 366))
    0.

(** [Precision.datenum(y, m, d)] on three ints. *)
Definition datenum (y m d : Z) : result Z :=
  try_except
    (d' <- date_new y m d ;;
     datenum_date d')
    0.

(** A [pandas.Timestamp]: its calendar day and the nanoseconds elapsed in
    that day. *)
Record timestamp : Set := mk_timestamp { ts_day : date; ts_nanos : Z }.

(** [Precision.datenum(d)] on a [pandas.Timestamp]. *)
Definition datenum_timestamp (d : timestamp) : result Z :=
  try_except
    (d' <- date_new (year (ts_day d)) (month (ts_day d)) (day (ts_day d)) ;;
     datenum_date d')
    0.

(** The [delta] argument of [dtrange]: a [datetime.timedelta] (its
    microseconds) or a dict of keyword arguments for one. *)
Inductive delta_arg : Set :=
| Timedelta (us : Z)
| DeltaDict (items : list (string * Z)).

(** [Precision.dtrange(start, end, delta)] has a [yield] in its body: its
    generator is not started, suspended at the [yield] with [current] just
    produced, or finished. *)
Inductive dtrange_gen : Set :=
| DtCreated (start stop : Z) (delta : delta_arg)
| DtSuspended (current stop delta : Z)
| DtFinished.

(** The test of [while current < end]. *)
Definition dtrange_test (current stop delta : Z) : step dtrange_gen Z :=
  if current <? stop then Yield current (DtSuspended current stop delta)
  else Stop.

(** [delta] as it stands if it is a [timedelta], else
    [datetime.timedelta] called on its items. *)
Definition delta_value (delta : delta_arg) : result Z :=
  match delta with
  | Timedelta us => Ok us
  | DeltaDict items => timedelta_of items
  end.

(** [next(g)].  Whatever the [try] block raises (the [timedelta] call, the
    addition), the handler prints it and the generator ends. *)
Definition dtrange_next (g : dtrange_gen) : step dtrange_gen Z :=
  match g with
  | DtCreated start stop delta =>
      match delta_value delta with
      | Ok us => dtrange_test start stop us
      | Raise _ => Stop
      end
  | DtSuspended current stop delta =>
      match datetime_add current delta with
      | Ok current' => dtrange_test current' stop delta
      | Raise _ => Stop
      end
  | DtFinished => Stop
  end.

(** The call [Precision.dtrange(start, end, delta)]. *)
Definition dtrange (start stop : Z) (delta : delta_arg) : dtrange_gen :=
  DtCreated start stop delta.

End PrecisionDates.

(* ------------------------------------------------------------------ *)
(** * The data of [precision_test.py] *)

Module TestData.

Import Datetime PrecisionDates.

(** [[i for i in g]], with a bound on the length. *)
Definition collect (g : dtrange_gen) (bound : Z) : list Z :=
  match drain dtrange_next (Z.to_nat bound) g with
  | Some (Ok l) => l
  | _ => []
  end.

(** [p.dtrange(datetime(2018, 6, 12), datetime(y, 12, 12),
    {'days': 1, 'hours': 2})] *)
Definition test_range (y : Z) : list Z :=
  match datetime_new 2018 6 12, datetime_new y 12 12 with
  | Ok start, Ok stop =>
      collect (dtrange start stop
                 (DeltaDict [("days"%string, 1%Z); ("hours"%string, 2%Z)]))
              15000
  | _, _ => []
  end.

(** [[p.datenum(i.date()) for i in d]] *)
Definition datenums (d : list Z) : list Z :=
  flat_map (fun i => match datenum_date (datetime_date i) with
                     | Ok n => [n]
                     | Raise _ => []
                     end) d.

End TestData.

(* ------------------------------------------------------------------ *)
(** * quantile and prctile on binary64 numbers *)

Module Binary64.

Local Open Scope py_scope.
Local Open Scope float_scope.

(** ** Python numbers and the arrays numpy builds from them *)

(** The numbers a Python list can hold: ints of any size and floats. *)
Inductive pynum : Type :=
| PyInt (z : Z)
| PyFloat (f : float).

(** [float(z)]: the binary64 number nearest to the integer [z], ties to
    even.  numpy converts the cells of an integer array the same way. *)
Definition of_int (z : Z) : float :=
  SF2Prim (binary_normalize prec emax z 0 false).

(** An integer as the operand of a correctly rounded division. *)
Definition exact_int (z : Z) : spec_float :=
  match z with
  | Z0 => S754_zero false
  | Zpos m => S754_finite false m 0
  | Zneg m => S754_finite true m 0
  end.

(** [a / b] on Python ints: the binary64 number nearest to the quotient,
    [ZeroDivisionError] for [b = 0] and [OverflowError] when the quotient
    is beyond the floats. *)
Definition truediv (a b : Z) : result float :=
  if (b =? 0)%Z then Raise ZeroDivisionError
  else
    let r := SF2Prim (SFdiv prec emax (exact_int a) (exact_int b)) in
    if is_infinity r then Raise OverflowError else Ok r.

(** The type numpy finds for one cell of a list: int64 for an int that fits
    in it, uint64 for a larger one below [2^64], object for any other
    int. *)
Inductive dtype : Type := int64 | uint64 | float64 | object.

Definition dtype_of (x : pynum) : dtype :=
  match x with
  | PyFloat _ => float64
  | PyInt z =>
      if ((- 2 ^ 63 <=? z) && (z <? 2 ^ 63))%Z then int64
      else if ((2 ^ 63 <=? z) && (z <? 2 ^ 64))%Z then uint64
      else object
  end.

(** The common type of two cells: object absorbs, equal types stay, and
    any other pair (an integer type with float64, int64 with uint64) is
    float64. *)
Definition promote (a b : dtype) : dtype :=
  match a, b with
  | object, _ | _, object => object
  | int64, int64 => int64
  | uint64, uint64 => uint64
  | _, _ => float64
  end.

(** The type of [numpy.asanyarray(x)] for a list of numbers (float64 for
    the empty list). *)
Definition result_type (x : list pynum) : dtype :=
  match x with
  | [] => float64
  | c :: x' => fold_left (fun t c' => promote t (dtype_of c')) x' (dtype_of c)
  end.

(** The cell as an integer, the cell as a binary64 number. *)
Definition int_value (x : pynum) : Z :=
  match x with
  | PyInt z => z
  | PyFloat _ => 0%Z
  end.

Definition to_double (x : pynum) : float :=
  match x with
  | PyInt z => of_int z
  | PyFloat f => f
  end.

(** One-dimensional arrays: 64-bit integers (signed or unsigned), binary64
    numbers, or Python objects.  The cells of an object array play no part
    below: [numpy.interp] refuses the array whatever it holds. *)
Inductive ndarray : Type :=
| IntArray (l : list Z)
| FloatArray (l : list float)
| ObjectArray.

(** [numpy.asanyarray(x)] *)
Definition asanyarray (x : list pynum) : ndarray :=
  match result_type x with
  | int64 | uint64 => IntArray (map int_value x)
  | float64 => FloatArray (map to_double x)
  | object => ObjectArray
  end.

(** The order in which [numpy.sort] puts binary64 numbers: ascending, the
    NaNs last. *)
Definition sort_leb (a b : float) : bool := is_nan b || (a <=? b).

(** [numpy.sort(x)] on a Python list. *)
Definition np_sort (x : list pynum) : ndarray :=
  match asanyarray x with
  | IntArray l => IntArray (Numpy.sort Z.leb l)
  | FloatArray l => FloatArray (Numpy.sort sort_leb l)
  | ObjectArray => ObjectArray
  end.



(** The cast to float64 that [numpy.interp] asks for its arguments: safe
    from the numeric types, refused ([TypeError]) from object. *)
Definition as_float64 (a : ndarray) : result (list float) :=
  match a with
  | IntArray l => Ok (map of_int l)
  | FloatArray l => Ok l
  | ObjectArray => Raise TypeError
  end.

(** ** numpy.linspace *)

(** [numpy.arange(first, first + num)]: [num] integers from [first] on. *)
Fixpoint arange (first : Z) (num : nat) : list Z :=
  match num with
  | O => []
  | S num' => first :: arange (first + 1) num'
  end.

(** [numpy.linspace(start, stop, num)] on floats, end point included, from
    the floats [y] of [arange(0, num)]: [y * step + start] with
    [step = (stop - start) / (num - 1)] (for a step that rounds to zero, the
    division is done first), the last sample then set to [stop]. *)
Definition linspace_of (y : list float) (start stop : float) (num : nat)
  : list float :=
  let div := (num - 1)%nat in
  let delta := stop - start in
  let y :=
    if (0 <? div)%nat then
      let step := delta / of_int (Z.of_nat div) in
      if step =? 0
      then map (fun c => c / of_int (Z.of_nat div) * delta) y
      else map (fun c => c * step) y
    else map (fun c => c * delta) y in
  let y := map (fun c => c + start) y in
  if (1 <? num)%nat then removelast y ++ [stop] else y.

Definition linspace (start stop : float) (num : nat) : list float :=
  linspace_of (map of_int (arange 0 num)) start stop num.

(** ** numpy.interp *)

(** Where the search of [numpy.interp] finds the key in the sample points
    [arr]: above the last one, below the first one, or in the cell [j] with
    [arr[j] <= key < arr[j+1]]. *)
Inductive place : Type :=
| Above
| Below
| Cell (j : nat).

(** The scan from the left: from cell [j], step right while the next
    sample point is not above the key. *)
Fixpoint scan (key : float) (rest : list float) (j : nat) : nat :=
  match rest with
  | [] => j
  | a :: rest' => if a <=? key then scan key rest' (S j) else j
  end.

(** numpy looks the cell up by bisection; for the increasing sample points
    that [numpy.interp] requires, the scan from the left finds the same
    cell. *)
Definition search (key : float) (arr : list float) : place :=
  if last arr 0 <? key then Above
  else if key <? hd 0 arr then Below
  else Cell (scan key (tl arr) 0).

(** The value on the line through the samples [j] and [j + 1].  When the
    sum from the left sample is not a number, the sum from the right one is
    taken, and when that is not one either and the two samples are equal,
    their value. *)
Definition on_segment (x x0 x1 y0 y1 : float) : float :=
  let slope := (y1 - y0) / (x1 - x0) in
  let r := slope * (x - x0) + y0 in
  if is_nan r then
    let r' := slope * (x - x1) + y1 in
    if is_nan r' && (y0 =? y1) then y0 else r'
  else r.

(** [numpy.interp(x, xp, fp)] for a scalar [x] and the default
    [left = fp[0]], [right = fp[-1]]. *)
Definition interp (x : float) (xp fp : list float) : result float :=
  if (length xp =? 0)%nat then Raise ValueError
  else if negb (length fp =? length xp)%nat then Raise ValueError
  else
    let lval := hd 0 fp in
    let rval := last fp 0 in
    Ok (match xp with
        | [xp0] => if x <? xp0 then lval else if xp0 <? x then rval else hd 0 fp
        | _ =>
            if is_nan x then x
            else match search x xp with
                 | Below => lval
                 | Above => rval
                 | Cell j =>
                     if (j =? length xp - 1)%nat then nth j fp 0
                     else if nth j xp 0 =? x then nth j fp 0
                     else on_segment x (nth j xp 0) (nth (S j) xp 0)
                                     (nth j fp 0) (nth (S j) fp 0)
                 end
        end).

(** Whether each sample point is below the next: the increase that
    [numpy.interp] requires of [xp] and does not check. *)
Fixpoint increasing (xp : list float) : bool :=
  match xp with
  | [] => true
  | x0 :: xp' =>
      match xp' with
      | [] => true
      | x1 :: _ => (x0 <? x1) && increasing xp'
      end
  end.

(** ** quantile, prctile *)

(** The plotting positions handed to [numpy.interp]:
    [numpy.linspace(1 / (2 * n), (2 * n - 1) / (2 * n), n)]. *)
Definition positions (n : nat) : result (list float) :=
  let n' := Z.of_nat n in
  start <- truediv 1 (2 * n') ;;
  stop <- truediv (2 * n' - 1) (2 * n') ;;
  Ok (linspace start stop n).

(** [Precision.quantile(x, q)] *)
Definition quantile (x : list pynum) (q : float) : result float :=
  assert (1 <=? length x)%nat ;;;
  assert (0 <=? q) ;;;
  try_except
    (let n := length x in
     let y := np_sort x in
     xp <- positions n ;;
     fp <- as_float64 y ;;
     interp q xp fp)
    0.

(** [numpy.array(p) / 100] for a Python int [p]: the division of binary64
    numbers when [p] fits a 64-bit integer type, Python's own division of
    ints when the array holds [p] as an object. *)
Definition percent (p : Z) : result float :=
  match dtype_of (PyInt p) with
  | object => truediv p 100
  | _ => Ok (of_int p / of_int 100)
  end.

(** [Precision.prctile(x, p)] *)
Definition prctile (x : list pynum) (p : Z) : result float :=
  assert (1 <=? length x)%nat ;;;
  assert (1 <=? p)%Z ;;;
  try_except (q <- percent p ;; quantile x q) 0.

(** Whether the plotting positions of [n] samples are there, none below
    zero, and increasing. *)
Definition positions_ok (n : nat) : bool :=
  match positions n with
  | Ok xp => (0 <=? hd 0 xp) && increasing xp
  | Raise _ => false
  end.

(** [positions_ok] for every [n] from 1 to [N], on the floats of one
    [arange(0, N)], whose first [n] cells are those of [arange(0, n)]. *)
Definition positions_ok_on (ys : list float) (n : nat) : bool :=
  let n' := Z.of_nat n in
  match (start <- truediv 1 (2 * n') ;;
         stop <- truediv (2 * n' - 1) (2 * n') ;;
         Ok (linspace_of (firstn n ys) start stop n)) with
  | Ok xp => (0 <=? hd 0 xp) && increasing xp
  | Raise _ => false
  end.

Definition positions_checked (N : nat) : bool :=
  let ys := map of_int (arange 0 N) in
  forallb (positions_ok_on ys) (seq 1 N).

(** ** The order of binary64 numbers *)

(** The comparison the processor makes ([None] when one side is a NaN),
    on the representation of the numbers. *)
Definition cmp (x y : float) : option comparison :=
  SFcompare (Prim2SF x) (Prim2SF y).

(** The place of a number on the line: its kind (the infinities, negative,
    zero, positive), then exponent and mantissa. *)
Definition key (x : spec_float) : Z * Z * Z :=
  match x with
  | S754_nan => (0, 0, 0)
  | S754_zero _ => (0, 0, 0)
  | S754_infinity true => (-2, 0, 0)
  | S754_infinity false => (2, 0, 0)
  | S754_finite true m e => (-1, - e, Z.neg m)
  | S754_finite false m e => (1, e, Z.pos m)
  end%Z.

(** The lexicographic comparison of two places. *)
Definition lex (k k' : Z * Z * Z) : comparison :=
  let '(a, b, c) := k in
  let '(a', b', c') := k' in
  match (a ?= a')%Z with
  | Eq => match (b ?= b')%Z with
          | Eq => (c ?= c')%Z
          | r => r
          end
  | r => r
  end.

Definition number (x : spec_float) : Prop := x <> S754_nan.

End Binary64.

(* ------------------------------------------------------------------ *)
(** * Facts about the numpy primitives *)

Module NumpyFacts.

Import Numpy.

Section SortFacts.

Variable A : Type.
Variable leb : A -> A -> bool.

Lemma insert_perm (x : A) (l : list A) : Permutation (insert leb x l) (x :: l).
Proof.
  induction l as [|y l IH]; simpl.
  - apply Permutation_refl.
  - destruct (leb x y).
    + apply Permutation_refl.
    + apply Permutation_trans with (y :: x :: l).
      * now apply perm_skip.
      * apply perm_swap.
Qed.

Lemma sort_perm (l : list A) : Permutation (sort leb l) l.
Proof.
  induction l as [|x l IH]; simpl.
  - apply perm_nil.
  - apply Permutation_trans with (x :: sort leb l).
    + apply insert_perm.
    + now apply perm_skip.
Qed.

Lemma sort_length (l : list A) : length (sort leb l) = length l.
Proof. apply Permutation_length, sort_perm. Qed.

Lemma sort_In (l : list A) (x : A) : In x (sort leb l) <-> In x l.
Proof.
  split; apply Permutation_in.
  - apply sort_perm.
  - apply Permutation_sym, sort_perm.
Qed.

Lemma sort_NoDup (l : list A) : NoDup l -> NoDup (sort leb l).
Proof.
  intros H. eapply Permutation_NoDup; [|exact H].
  apply Permutation_sym, sort_perm.
Qed.

Lemma insert_head (x : A) (l : list A) :
  HdRel (le leb) x l -> insert leb x l = x :: l.
Proof.
  intros H. destruct H as [|y l H]; simpl.
  - reflexivity.
  - unfold le in H. now rewrite H.
Qed.

(** A sorted array is left alone. *)
Lemma sort_sorted (l : list A) : Sorted (le leb) l -> sort leb l = l.
Proof.
  induction 1 as [|x l Hl IH Hx]; simpl.
  - reflexivity.
  - rewrite IH. now apply insert_head.
Qed.

Hypothesis leb_total : forall x y, leb x y = true \/ leb y x = true.
Hypothesis leb_trans : forall x y z, le leb x y -> le leb y z -> le leb x z.

Lemma insert_sorted (x : A) (l : list A) :
  StronglySorted (le leb) l -> StronglySorted (le leb) (insert leb x l).
Proof.
  induction 1 as [|y l Hl IH Hy]; simpl.
  - constructor; constructor.
  - destruct (leb x y) eqn:E.
    + constructor.
      * now constructor.
      * constructor; [exact E|].
        eapply Forall_impl; [|exact Hy].
        intros z Hz. now apply leb_trans with y.
    + constructor; [exact IH|].
      assert (Hyx : le leb y x) by (destruct (leb_total x y); congruence).
      rewrite Forall_forall in *. intros z Hz.
      apply (Permutation_in _ (insert_perm x l)) in Hz.
      destruct Hz as [<-|Hz]; auto.
Qed.

Lemma sort_StronglySorted (l : list A) : StronglySorted (le leb) (sort leb l).
Proof.
  induction l as [|x l IH]; simpl.
  - constructor.
  - now apply insert_sorted.
Qed.

(** The first cell of a sorted array is a lower bound of the array. *)
Lemma sorted_hd_min (l : list A) (d x : A) :
  (forall y, le leb y y) -> StronglySorted (le leb) l -> In x l -> le leb (hd d l) x.
Proof.
  intros Hrefl Hs Hin. destruct Hs as [|y l Hl Hy]; simpl in *.
  - contradiction.
  - destruct Hin as [<-|Hin]; [apply Hrefl|].
    rewrite Forall_forall in Hy. now apply Hy.
Qed.

(** The last cell of a sorted array is an upper bound of the array. *)
Lemma sorted_last_max (l : list A) (d x : A) :
  (forall y, le leb y y) -> StronglySorted (le leb) l -> In x l -> le leb x (last l d).
Proof.
  intros Hrefl Hs. revert x.
  induction Hs as [|y l Hl IH Hy]; intros x Hin.
  - contradiction.
  - destruct l as [|z l].
    + destruct Hin as [<-|[]]. apply Hrefl.
    + change (last (y :: z :: l) d) with (last (z :: l) d).
      destruct Hin as [<-|Hin].
      * rewrite Forall_forall in Hy. apply leb_trans with z.
        -- apply Hy. now left.
        -- apply IH. now left.
      * now apply IH.
Qed.

End SortFacts.

End NumpyFacts.

(* ------------------------------------------------------------------ *)
(** * Facts about sorting rationals, linspace and interp *)

Module InterpFacts.

Import Numpy.
Local Open Scope Q_scope.

Lemma Sorted_Qle_le (l : list Q) : Sorted Qle l -> Sorted (le Qle_bool) l.
Proof.
  induction 1 as [|x l Hl IH Hx]; constructor; auto.
  destruct Hx; constructor. unfold le. now apply Qle_bool_iff.
Qed.

Lemma sort_Qle_sorted (l : list Q) : Sorted Qle l -> sort Qle_bool l = l.
Proof. intros H. now apply NumpyFacts.sort_sorted, Sorted_Qle_le. Qed.

Lemma Qle_bool_total (x y : Q) : Qle_bool x y = true \/ Qle_bool y x = true.
Proof.
  rewrite !Qle_bool_iff. destruct (Qlt_le_dec x y) as [H|H]; auto.
  left. now apply Qlt_le_weak.
Qed.

Lemma Qle_bool_trans (x y z : Q) :
  le Qle_bool x y -> le Qle_bool y z -> le Qle_bool x z.
Proof. unfold le. rewrite !Qle_bool_iff. apply Qle_trans. Qed.

Lemma Qltb_true (x y : Q) : Qltb x y = true <-> x < y.
Proof.
  unfold Qltb. rewrite negb_true_iff. split; intros H.
  - apply Qnot_le_lt. intros Hle. apply Qle_bool_iff in Hle. congruence.
  - destruct (Qle_bool y x) eqn:E; [|reflexivity].
    apply Qle_bool_iff in E. exfalso. now apply (Qlt_not_le x y).
Qed.

Lemma Qltb_false (x y : Q) : Qltb x y = false <-> y <= x.
Proof.
  unfold Qltb. rewrite negb_false_iff. apply Qle_bool_iff.
Qed.

Lemma Qofnat_S (n : nat) : Qofnat (S n) == Qofnat n + 1.
Proof.
  unfold Qofnat. rewrite Nat2Z.inj_succ, <- Z.add_1_r, inject_Z_plus.
  reflexivity.
Qed.

Lemma Qofnat_le (m n : nat) : (m <= n)%nat -> Qofnat m <= Qofnat n.
Proof. intros H. unfold Qofnat. rewrite <- Zle_Qle. lia. Qed.

Lemma Qofnat_lt (m n : nat) : (m < n)%nat -> Qofnat m < Qofnat n.
Proof. intros H. unfold Qofnat. rewrite <- Zlt_Qlt. lia. Qed.

Lemma Qofnat_pos (n : nat) : (0 < n)%nat -> 0 < Qofnat n.
Proof. intros H. now apply (Qofnat_lt H). Qed.

Lemma Qofnat_pred (n : nat) : (1 <= n)%nat -> Qofnat (n - 1) == Qofnat n - 1.
Proof.
  intros H. destruct n as [|n]; [lia|].
  replace (S n - 1)%nat with n by lia. rewrite Qofnat_S. ring.
Qed.

Lemma nth_map_seq (f : nat -> Q) (k n : nat) (d : Q) :
  (k < n)%nat -> nth k (map f (seq 0 n)) d = f k.
Proof.
  intros H. rewrite (nth_indep _ d (f 0%nat)) by (now rewrite length_map, length_seq).
  rewrite map_nth, seq_nth by exact H. reflexivity.
Qed.

Lemma linspace_length (a b : Q) (n : nat) : length (linspace a b n) = n.
Proof. unfold linspace. now rewrite length_map, length_seq. Qed.

End InterpFacts.

(* ------------------------------------------------------------------ *)
(** * quantile and prctile *)

Module QuantileSpec.

Import Numpy InterpFacts Precision.
Local Open Scope Q_scope.
Local Open Scope py_scope.

Lemma positions_length (n : nat) : length (positions n) = n.
Proof. apply linspace_length. Qed.

Lemma Qofnat_neq0 (n : nat) : (0 < n)%nat -> ~ Qofnat n == 0.
Proof.
  intros H E. apply Qofnat_pos in H. rewrite E in H. now apply (Qlt_irrefl 0).
Qed.

Lemma quantile_num (v : list Q) (q : Q) :
  v <> [] -> 0 <= q ->
  quantile (NumList v) q
  = try_except (interp q (positions (length v)) (sort Qle_bool v)) 0.
Proof.
  intros Hv Hq. unfold quantile. simpl.
  destruct v as [|x v]; [congruence|].
  apply Qle_bool_iff in Hq. rewrite Hq. reflexivity.
Qed.

Lemma quantile_always_returns (x : pylist) (q : Q) :
  (1 <= len x)%nat -> 0 <= q -> exists r, quantile x q = Ok r.
Proof.
  intros Hx Hq. unfold quantile.
  apply Nat.leb_le in Hx. apply Qle_bool_iff in Hq. rewrite Hx, Hq. simpl.
  destruct (np_interp q (positions (len x)) (np_sort x)); simpl; eauto.
Qed.

(** C4.  For a non-empty sample vector and a percentage [p] in [[1,100]],
    [prctile(x, p)] is [quantile(x, p/100)]. *)
Theorem prctile_rescales (x : pylist) (p : Q) :
  (1 <= len x)%nat ->
  1 <= p <= 100 ->
  prctile x p = quantile x (p / 100).
Proof.
  intros Hx [Hp _]. unfold prctile.
  assert (Hq : 0 <= p / 100) by (apply Qle_shift_div_l; [reflexivity|lra]).
  destruct (@quantile_always_returns x _ Hx Hq) as [r Hr].
  apply Nat.leb_le in Hx. apply Qle_bool_iff in Hp.
  rewrite Hx, Hp, Hr. reflexivity.
Qed.

Lemma prctile_rescales_witness :
  prctile (NumList [3; 1; 2]) 50 = quantile (NumList [3; 1; 2]) (50 / 100).
Proof.
  apply (@prctile_rescales (NumList [3; 1; 2]) 50).
  - simpl. lia.
  - split; unfold Qle; simpl; lia.
Defined.

(** Whatever the strings and the accepted request, the handler's default
    is what comes back. *)
Lemma quantile_strings_default (l : list string) (q : Q) :
  l <> [] -> 0 <= q -> quantile (StrList l) q = Ok 0.
Proof.
  intros Hl Hq. unfold quantile. simpl.
  destruct l as [|s l]; [congruence|].
  apply Qle_bool_iff in Hq. rewrite Hq. reflexivity.
Qed.

(** C3 (what the code does where the claim fails).  On a list of strings
    [numpy.interp] raises; [quantile] catches the exception and returns
    [0.0], and so does [prctile]: the failure does not reach the caller. *)
Theorem quantile_default_on_failure :
  quantile (StrList ["a"%string]) (1 # 2) = Ok 0
  /\ prctile (StrList ["a"%string]) 50 = Ok 0.
Proof. split; reflexivity. Qed.

End QuantileSpec.

(* ------------------------------------------------------------------ *)
(** * The order of binary64 numbers *)

Module FloatOrder.

Import Binary64.

Local Open Scope Z_scope.

Lemma SFcompare_key (x y : spec_float) :
  number x -> number y -> SFcompare x y = Some (lex (key x) (key y)).
Proof.
  unfold number. intros Hx Hy.
  destruct x as [sx|sx| |sx mx ex], y as [sy|sy| |sy my ey];
    try congruence; try destruct sx; try destruct sy; try reflexivity.
  cbn [SFcompare key lex]. change (-1 ?= -1) with Eq. cbv iota.
  rewrite Z.compare_opp, (Z.compare_antisym ex ey).
  destruct (ex ?= ey); reflexivity.
Qed.

Lemma SFcompare_nan (x y : spec_float) :
  SFcompare x y = None <-> ~ number x \/ ~ number y.
Proof.
  unfold number. split.
  - destruct x, y; try discriminate; simpl; try destruct s; try destruct s0;
      try discriminate; tauto.
  - intros [H|H].
    + destruct x; try (exfalso; apply H; discriminate). now destruct y.
    + destruct y; try (exfalso; apply H; discriminate). now destruct x.
Qed.

Ltac lex_solve :=
  unfold lex;
  repeat match goal with
         | k : (Z * Z * Z)%type |- _ => destruct k as [[? ?] ?]
         end;
  repeat match goal with
         | |- context [?a ?= ?b] => destruct (Z.compare_spec a b)
         | H : context [?a ?= ?b] |- _ => destruct (Z.compare_spec a b)
         end;
  cbn [CompOpp]; try congruence; try lia.

Lemma lex_lt_trans k1 k2 k3 : lex k1 k2 = Lt -> lex k2 k3 = Lt -> lex k1 k3 = Lt.
Proof. lex_solve. Qed.
Lemma lex_lt_eq k1 k2 k3 : lex k1 k2 = Lt -> lex k2 k3 = Eq -> lex k1 k3 = Lt.
Proof. lex_solve. Qed.
Lemma lex_refl k : lex k k = Eq.
Proof. lex_solve. Qed.
Lemma lex_antisym k1 k2 : lex k2 k1 = CompOpp (lex k1 k2).
Proof. lex_solve. Qed.


Local Open Scope float_scope.

Lemma float_ltb_cmp (x y : float) :
  (x <? y) = match cmp x y with Some Lt => true | _ => false end.
Proof. now rewrite FloatAxioms.ltb_spec. Qed.

Lemma float_leb_cmp (x y : float) :
  (x <=? y) = match cmp x y with Some (Lt | Eq) => true | _ => false end.
Proof. now rewrite FloatAxioms.leb_spec. Qed.

Lemma float_eqb_cmp (x y : float) :
  (x =? y) = match cmp x y with Some Eq => true | _ => false end.
Proof. now rewrite FloatAxioms.eqb_spec. Qed.

Lemma cmp_number (x y : float) :
  cmp x y <> None ->
  cmp x y = Some (lex (key (Prim2SF x)) (key (Prim2SF y))).
Proof.
  unfold cmp. intros H. apply SFcompare_key.
  - intros E. apply H. apply SFcompare_nan. left. now intros N.
  - intros E. apply H. apply SFcompare_nan. right. now intros N.
Qed.

Lemma cmp_some (x y : float) (c : comparison) :
  cmp x y = Some c ->
  number (Prim2SF x) /\ number (Prim2SF y)
  /\ lex (key (Prim2SF x)) (key (Prim2SF y)) = c.
Proof.
  intros H. assert (N : cmp x y <> None) by congruence.
  pose proof (@cmp_number x y N) as E. rewrite H in E.
  repeat split; try congruence.
  - intros Hx. apply N. apply SFcompare_nan. left. now intros K.
  - intros Hy. apply N. apply SFcompare_nan. right. now intros K.
Qed.

Lemma cmp_of_lex (x y : float) :
  number (Prim2SF x) -> number (Prim2SF y) ->
  cmp x y = Some (lex (key (Prim2SF x)) (key (Prim2SF y))).
Proof. intros Hx Hy. now apply SFcompare_key. Qed.

(** [x] is a number: not a NaN. *)
Lemma is_nan_number (x : float) : is_nan x = false <-> number (Prim2SF x).
Proof.
  unfold is_nan. rewrite float_eqb_cmp. split.
  - intros H. destruct (cmp x x) as [c|] eqn:E; [|discriminate].
    now apply cmp_some in E.
  - intros H. rewrite (@cmp_of_lex x x H H), lex_refl. reflexivity.
Qed.

Lemma cmp_lt_trans (x y z : float) :
  cmp x y = Some Lt -> cmp y z = Some Lt -> cmp x z = Some Lt.
Proof.
  intros H1 H2. apply cmp_some in H1, H2.
  destruct H1 as (Nx & Ny & L1), H2 as (_ & Nz & L2).
  rewrite (@cmp_of_lex x z Nx Nz). f_equal. eapply lex_lt_trans; eauto.
Qed.

Lemma cmp_lt_eq (x y z : float) :
  cmp x y = Some Lt -> cmp y z = Some Eq -> cmp x z = Some Lt.
Proof.
  intros H1 H2. apply cmp_some in H1, H2.
  destruct H1 as (Nx & Ny & L1), H2 as (_ & Nz & L2).
  rewrite (@cmp_of_lex x z Nx Nz). f_equal. eapply lex_lt_eq; eauto.
Qed.



Lemma cmp_flip (x y : float) (c : comparison) :
  cmp x y = Some c -> cmp y x = Some (CompOpp c).
Proof.
  intros H. apply cmp_some in H. destruct H as (Nx & Ny & L).
  rewrite (@cmp_of_lex y x Ny Nx), lex_antisym, L. reflexivity.
Qed.


(** *** The order of binary64 numbers *)



Lemma float_ltb_leb_trans (x y z : float) :
  (x <? y) = true -> (y <=? z) = true -> (x <? z) = true.
Proof.
  rewrite float_leb_cmp, !float_ltb_cmp. intros H1 H2.
  destruct (cmp x y) as [[]|] eqn:E1; try discriminate.
  destruct (cmp y z) as [[]|] eqn:E2; try discriminate.
  - now rewrite (@cmp_lt_eq x y z E1 E2).
  - now rewrite (@cmp_lt_trans x y z E1 E2).
Qed.



(** What is below is not above. *)
Lemma float_ltb_not_leb (x y : float) : (x <? y) = true -> (y <=? x) = false.
Proof.
  rewrite float_leb_cmp, float_ltb_cmp. intros H.
  destruct (cmp x y) as [[]|] eqn:E; try discriminate.
  now rewrite (@cmp_flip x y _ E).
Qed.





(** Only numbers compare. *)
Lemma float_leb_is_number (x y : float) :
  (x <=? y) = true -> is_nan x = false /\ is_nan y = false.
Proof.
  rewrite float_leb_cmp. intros H.
  destruct (cmp x y) as [c|] eqn:E; [|discriminate].
  apply cmp_some in E. destruct E as (Nx & Ny & _).
  split; now apply is_nan_number.
Qed.


End FloatOrder.

(* ------------------------------------------------------------------ *)
(** * [numpy.interp] on binary64 numbers *)

Module InterpSpec.

Import Binary64 FloatOrder.
Local Open Scope float_scope.
Local Open Scope py_scope.
















End InterpSpec.

(* ------------------------------------------------------------------ *)
(** * quantile and prctile on binary64 numbers: what the method returns *)

Module Binary64Spec.

Import Binary64 FloatOrder InterpSpec.
Local Open Scope float_scope.
Local Open Scope py_scope.

(** ** The plotting positions *)





(** The first cells of a longer [arange]. *)
Lemma arange_firstn (n : nat) :
  forall (N : nat) (first : Z),
    (n <= N)%nat -> firstn n (arange first N) = arange first n.
Proof.
  induction n as [|n IH]; intros N first H; [reflexivity|].
  destruct N as [|N]; [lia|]. cbn [arange firstn].
  f_equal. apply IH. lia.
Qed.

Lemma positions_ok_on_arange (N n : nat) :
  (n <= N)%nat ->
  positions_ok_on (map of_int (arange 0 N)) n = positions_ok n.
Proof.
  intros H. unfold positions_ok_on, positions_ok, positions, linspace.
  now rewrite firstn_map, arange_firstn.
Qed.

Lemma positions_checked_spec (N n : nat) :
  positions_checked N = true -> (1 <= n <= N)%nat -> positions_ok n = true.
Proof.
  unfold positions_checked. cbv zeta. intros A H.
  rewrite forallb_forall in A.
  rewrite <- (@positions_ok_on_arange N n) by lia.
  apply A. apply in_seq. lia.
Qed.

(** The plotting positions of up to 4096 samples, by evaluation. *)
Lemma positions_ok_4096 : positions_checked 4096 = true.
Proof. vm_compute. reflexivity. Qed.

Lemma positions_ok_upto (n : nat) :
  (1 <= n <= 4096)%nat -> positions_ok n = true.
Proof. exact (@positions_checked_spec 4096 n positions_ok_4096). Qed.


(** ** The sorted array *)








Lemma as_float64_object (x : list pynum) :
  result_type x = object -> as_float64 (np_sort x) = Raise TypeError.
Proof. unfold np_sort, asanyarray. now intros ->. Qed.





(** ** quantile and prctile *)








(** Between two positions the value is computed in binary64.  For the
    samples [1e308] and [-1e308] the slope overflows: the request [0.5]
    returns infinity, above the largest sample, and the larger request
    [0.75] returns less, the largest sample. *)
Example quantile_overflow :
  let x := [PyFloat 0x1.1ccf385ebc8ap+1023; PyFloat (-0x1.1ccf385ebc8ap+1023)] in
  quantile x 0.5 = Ok infinity
  /\ quantile x 0.75 = Ok 0x1.1ccf385ebc8ap+1023.
Proof. split; vm_compute; reflexivity. Qed.

(** X3.  [quantile] raises exactly when the list is empty or the test
    [q >= 0.0] fails, as it does for a negative request and for a NaN;
    [prctile] raises exactly when the list is empty or the percentage is
    below 1.  In every other case each returns a float, whatever the list
    holds, and on a list that numpy holds as an array of objects [quantile]
    returns [0.0]. *)
Theorem quantile_prctile_refusals (x : list pynum) (q : float) (p : Z) :
  (quantile x q = Raise AssertionError <-> x = [] \/ (0 <=? q) = false)
  /\ ((q <? 0) = true -> (0 <=? q) = false)
  /\ (is_nan q = true -> (0 <=? q) = false)
  /\ (prctile x p = Raise AssertionError <-> x = [] \/ (p < 1)%Z)
  /\ (x <> [] -> (0 <=? q) = true -> exists r, quantile x q = Ok r)
  /\ (x <> [] -> (1 <= p)%Z -> exists r, prctile x p = Ok r)
  /\ (x <> [] -> (0 <=? q) = true -> result_type x = object ->
      quantile x q = Ok 0).
Proof.
  assert (Hlen : x <> [] -> (1 <=? length x)%nat = true).
  { destruct x; [congruence|reflexivity]. }
  assert (Hquant : x <> [] -> (0 <=? q) = true -> exists r, quantile x q = Ok r).
  { intros Hx Hq. unfold quantile. rewrite (Hlen Hx), Hq. cbn [assert bind].
    destruct (_ <- positions (length x) ;; _); simpl; eauto. }
  assert (Hprc : x <> [] -> (1 <= p)%Z -> exists r, prctile x p = Ok r).
  { intros Hx Hp. unfold prctile. apply Z.leb_le in Hp.
    rewrite (Hlen Hx), Hp. cbn [assert bind].
    destruct (_ <- percent p ;; _); simpl; eauto. }
  split; [|split; [|split; [|split; [|split; [|split]]]]].
  - split.
    + intros Hr. destruct x as [|c x]; [now left|]. right.
      destruct (0 <=? q) eqn:Hq; [|reflexivity].
      destruct Hquant as [r E]; [discriminate|reflexivity|]. congruence.
    + unfold quantile. intros [->|Hq]; [reflexivity|].
      destruct (1 <=? length x)%nat; [|reflexivity]. now rewrite Hq.
  - apply float_ltb_not_leb.
  - intros Hn. destruct (0 <=? q) eqn:Hq; [|reflexivity].
    destruct (@float_leb_is_number 0 q Hq) as [_ Hq']. congruence.
  - split.
    + intros Hr. destruct x as [|c x]; [now left|]. right.
      destruct (Z_lt_le_dec p 1) as [H|H]; [exact H|].
      destruct Hprc as [r E]; [discriminate|exact H|]. congruence.
    + unfold prctile. intros [->|Hp]; [reflexivity|].
      destruct (1 <=? length x)%nat; [|reflexivity].
      apply Z.leb_gt in Hp. now rewrite Hp.
  - exact Hquant.
  - exact Hprc.
  - intros Hx Hq Ho. unfold quantile. rewrite (Hlen Hx), Hq. cbn [assert bind].
    rewrite (as_float64_object x Ho).
    now destruct (positions (length x)).
Qed.

Lemma quantile_prctile_refusals_witness :
  quantile [PyInt (2 ^ 64); PyFloat 0.5] 2 = Ok 0.
Proof.
  apply (proj2 (proj2 (proj2 (proj2 (proj2 (proj2
           (@quantile_prctile_refusals [PyInt (2 ^ 64); PyFloat 0.5] 2 1))))))).
  - discriminate.
  - vm_compute. reflexivity.
  - vm_compute. reflexivity.
Defined.

End Binary64Spec.

(* ------------------------------------------------------------------ *)
(** * unique and overlap1d on lists *)

Module ListSpec.

Import Precision.
Local Open Scope py_scope.

Section ElementFacts.

Variable A : Type.
Variable Aeq_dec : forall x y : A, {x = y} + {x <> y}.

Lemma contains_true (y : list A) (x : A) : contains Aeq_dec y x = true <-> In x y.
Proof. unfold contains. destruct (in_dec Aeq_dec x y); split; auto; discriminate. Qed.

Lemma contains_false (y : list A) (x : A) :
  contains Aeq_dec y x = false <-> ~ In x y.
Proof.
  unfold contains. destruct (in_dec Aeq_dec x y); split; auto; try discriminate.
  intros H. contradiction.
Qed.

Lemma eqb_true (x y : A) : eqb Aeq_dec x y = true <-> x = y.
Proof. unfold eqb. destruct (Aeq_dec x y); split; auto; discriminate. Qed.

Lemma unique_fold_length (l : list A) :
  forall acc, (length (fold_left (unique_step Aeq_dec) l acc) <= length acc + length l)%nat.
Proof.
  induction l as [|x l IH]; intros acc; simpl.
  - lia.
  - unfold unique_step at 2. destruct (contains Aeq_dec acc x); simpl.
    + specialize (IH acc). lia.
    + specialize (IH (acc ++ [x])). rewrite length_app in IH. simpl in IH. lia.
Qed.

Lemma unique_fold_incl (l : list A) :
  forall acc x, In x acc -> In x (fold_left (unique_step Aeq_dec) l acc).
Proof.
  induction l as [|y l IH]; intros acc x Hx; simpl.
  - exact Hx.
  - apply IH. unfold unique_step. destruct (contains Aeq_dec acc y); simpl; auto.
    apply in_or_app. now left.
Qed.

Lemma unique_fold_In (l : list A) :
  forall acc x, In x (fold_left (unique_step Aeq_dec) l acc) <-> In x acc \/ In x l.
Proof.
  induction l as [|y l IH]; intros acc x; simpl.
  - tauto.
  - rewrite IH. unfold unique_step. destruct (contains Aeq_dec acc y) eqn:E; simpl.
    + apply contains_true in E. split; [tauto|].
      intros [H|[<-|H]]; auto.
    + rewrite in_app_iff. simpl. tauto.
Qed.

Lemma unique_fold_NoDup (l : list A) :
  forall acc, NoDup acc -> NoDup (fold_left (unique_step Aeq_dec) l acc).
Proof.
  induction l as [|x l IH]; intros acc Hacc; simpl.
  - exact Hacc.
  - apply IH. unfold unique_step. destruct (contains Aeq_dec acc x) eqn:E; simpl.
    + exact Hacc.
    + apply contains_false in E.
      apply NoDup_rev in Hacc. rewrite <- (rev_involutive (acc ++ [x])).
      apply NoDup_rev. rewrite rev_app_distr. simpl.
      constructor; [|exact Hacc]. now rewrite <- in_rev.
Qed.

(** A list without repetition is rebuilt as it is. *)
Lemma unique_fold_fixed (l : list A) :
  forall acc, NoDup (acc ++ l) -> fold_left (unique_step Aeq_dec) l acc = acc ++ l.
Proof.
  induction l as [|x l IH]; intros acc H; simpl.
  - now rewrite app_nil_r.
  - assert (Hx : contains Aeq_dec acc x = false).
    { apply contains_false. apply NoDup_remove_2 in H.
      intros Hin. apply H. apply in_or_app. now left. }
    unfold unique_step at 2. rewrite Hx. simpl. rewrite IH; rewrite <- app_assoc; simpl; auto.
Qed.

Lemma unique_list_ok (l : list A) :
  l <> [] -> unique_list Aeq_dec l = Ok (fold_left (unique_step Aeq_dec) l []).
Proof. destruct l; [congruence|reflexivity]. Qed.

(** C9 (for the lists the method accepts).  For every non-empty list [v],
    [unique(v)] returns a list [u] no longer than [v], and [unique(u)]
    returns [u] again. *)
Theorem unique_list_shrinks_idempotent (v : list A) :
  v <> [] ->
  exists u,
    unique_list Aeq_dec v = Ok u
    /\ (length u <= length v)%nat
    /\ unique_list Aeq_dec u = Ok u.
Proof.
  intros Hv. exists (fold_left (unique_step Aeq_dec) v []).
  split; [now apply unique_list_ok|].
  split; [apply (unique_fold_length v [])|].
  assert (Hne : fold_left (unique_step Aeq_dec) v [] <> []).
  { destruct v as [|x v]; [congruence|]. intros E.
    assert (Hin : In x (fold_left (unique_step Aeq_dec) (x :: v) [])).
    { apply unique_fold_In. right. now left. }
    rewrite E in Hin. contradiction. }
  rewrite unique_list_ok by exact Hne. f_equal.
  apply (unique_fold_fixed _ []). simpl.
  apply unique_fold_NoDup. constructor.
Qed.

(** ** overlap1d *)

Lemma nth_error_combine (B C : Type) (l1 : list B) :
  forall (l2 : list C) (i : nat) (x : B) (y : C),
    nth_error (combine l1 l2) i = Some (x, y)
    <-> nth_error l1 i = Some x /\ nth_error l2 i = Some y.
Proof.
  induction l1 as [|a l1 IH]; intros l2 i x y.
  - simpl. destruct i; simpl; split; intros H; try discriminate;
      destruct H; discriminate.
  - destruct l2 as [|b l2].
    + simpl. destruct i; simpl; split; intros H; try discriminate;
        destruct H; discriminate.
    + destruct i as [|i]; simpl.
      * split; [intros H; injection H as <- <-; auto|].
        intros [H1 H2]. congruence.
      * apply IH.
Qed.

Lemma In_combine_seq (B : Type) (l : list B) :
  forall (a i : nat) (e : B),
    In (i, e) (combine (seq a (length l)) l)
    <-> (a <= i)%nat /\ nth_error l (i - a) = Some e.
Proof.
  induction l as [|b l IH]; intros a i e; simpl.
  - split; [tauto|]. intros [_ H]. destruct (i - a)%nat; discriminate.
  - rewrite IH. split.
    + intros [H|[Hle H]].
      * injection H as <- <-. rewrite Nat.sub_diag. auto.
      * split; [lia|]. replace (i - a)%nat with (S (i - S a)) by lia. exact H.
    + intros [Hle H]. destruct (Nat.eq_dec a i) as [<-|Hne].
      * rewrite Nat.sub_diag in H. simpl in H. left. congruence.
      * right. split; [lia|].
        replace (i - a)%nat with (S (i - S a)) in H by lia. exact H.
Qed.

Lemma In_enumerate (B : Type) (l : list B) (i : nat) (e : B) :
  In (i, e) (enumerate l) <-> nth_error l i = Some e.
Proof.
  unfold enumerate. rewrite In_combine_seq, Nat.sub_0_r.
  split; [tauto|]. split; [lia|assumption].
Qed.

Lemma enumerate_fst (B : Type) (l : list B) :
  map fst (enumerate l) = seq 0 (length l).
Proof.
  unfold enumerate. generalize 0%nat.
  induction l as [|b l IH]; intros a; simpl; [reflexivity|].
  now rewrite IH.
Qed.

Lemma NoDup_map_fst_filter (B : Type) (f : nat * B -> bool) (l : list (nat * B)) :
  NoDup (map fst l) -> NoDup (map fst (filter f l)).
Proof.
  induction l as [|e l IH]; simpl; intros H; [constructor|].
  inversion H as [|? ? Hnotin Hl]; subst.
  destruct (f e); simpl; auto.
  constructor; auto.
  intros Hin. apply Hnotin. apply in_map_iff in Hin.
  destruct Hin as (e' & He & Hin). apply filter_In in Hin.
  apply in_map_iff. exists e'. tauto.
Qed.

(** On items that are cells of [v0] and [v1] the loop is a filter. *)
Lemma overlap1d_loop_filter (v0 v1 : list A) (it : list (nat * (A * A))) :
  forall r,
    (forall i x y, In (i, (x, y)) it ->
                   nth_error v0 i = Some x /\ nth_error v1 i = Some y) ->
    overlap1d_loop Aeq_dec v0 v1 it r = r ++ filter (agree Aeq_dec) it.
Proof.
  induction it as [|[i [x y]] it IH]; intros r H; simpl.
  - now rewrite app_nil_r.
  - destruct (H i x y (or_introl eq_refl)) as [H0 H1].
    rewrite H0, H1. unfold agree at 1. simpl.
    destruct (eqb Aeq_dec x y).
    + rewrite IH by (intros; apply H; now right).
      rewrite <- app_assoc. reflexivity.
    + apply IH. intros; apply H; now right.
Qed.

Lemma overlap1d_ok (v0 v1 : list A) :
  v0 <> [] -> length v0 = length v1 ->
  overlap1d Aeq_dec v0 v1 = Ok (filter (agree Aeq_dec) (enumerate (combine v0 v1))).
Proof.
  intros Hv Hlen. unfold overlap1d.
  assert (H0 : (1 <=? length v0)%nat = true).
  { apply Nat.leb_le. destruct v0; [congruence|simpl; lia]. }
  assert (H1 : (1 <=? length v1)%nat = true).
  { rewrite <- Hlen. exact H0. }
  assert (H2 : (length v0 =? length v1)%nat = true) by now apply Nat.eqb_eq.
  rewrite H0, H1, H2. cbn [assert bind]. f_equal.
  rewrite overlap1d_loop_filter; [reflexivity|].
  intros i x y Hin. apply In_enumerate in Hin.
  now apply nth_error_combine.
Qed.

(** C6.  For non-empty lists [a] and [b] of one length, [overlap1d(a, b)]
    returns a list that holds the entry [(i, (a[i], b[i]))] for every position
    [i] with [a[i] == b[i]], holds nothing else, and holds no position
    twice. *)
Theorem overlap1d_agreeing_positions (a b : list A) :
  a <> [] ->
  length a = length b ->
  exists r,
    overlap1d Aeq_dec a b = Ok r
    /\ (forall i x y,
          In (i, (x, y)) r
          <-> nth_error a i = Some x /\ nth_error b i = Some y /\ x = y)
    /\ NoDup (map fst r).
Proof.
  intros Ha Hlen. exists (filter (agree Aeq_dec) (enumerate (combine a b))).
  split; [now apply overlap1d_ok|]. split.
  - intros i x y. rewrite filter_In, In_enumerate, nth_error_combine.
    unfold agree. simpl. rewrite eqb_true. tauto.
  - apply NoDup_map_fst_filter. rewrite enumerate_fst. apply seq_NoDup.
Qed.

(** ** The generator of overlap1d *)

Lemma acceptedb_spec (v0 v1 : list A) : acceptedb v0 v1 = true <-> accepted v0 v1.
Proof.
  unfold acceptedb, accepted.
  rewrite !andb_true_iff, !Nat.leb_le, Nat.eqb_eq.
  split.
  - intros [[H0 H1] H2]. repeat split; [| |exact H2].
    + intros ->. simpl in H0. lia.
    + intros ->. simpl in H1. lia.
  - intros (H0 & H1 & H2). destruct v0; [congruence|]. destruct v1; [congruence|].
    simpl in *. repeat split; lia.
Qed.

Lemma asserts_then (T : Type) (v0 v1 : list A) (k : result T) :
  (assert (1 <=? length v0)%nat ;;;
   assert (1 <=? length v1)%nat ;;;
   assert (length v0 =? length v1)%nat ;;; k)%py
  = if acceptedb v0 v1 then k else Raise AssertionError.
Proof.
  unfold acceptedb.
  destruct (1 <=? length v0)%nat, (1 <=? length v1)%nat,
    (length v0 =? length v1)%nat; reflexivity.
Qed.

Lemma asserts_only (v0 v1 : list A) :
  (assert (1 <=? length v0)%nat ;;;
   assert (1 <=? length v1)%nat ;;;
   assert (length v0 =? length v1)%nat)%py
  = if acceptedb v0 v1 then Ok tt else Raise AssertionError.
Proof.
  unfold acceptedb.
  destruct (1 <=? length v0)%nat, (1 <=? length v1)%nat,
    (length v0 =? length v1)%nat; reflexivity.
Qed.

Lemma asserts_pass (v0 v1 : list A) :
  accepted v0 v1 ->
  (assert (1 <=? length v0)%nat ;;;
   assert (1 <=? length v1)%nat ;;;
   assert (length v0 =? length v1)%nat)%py = Ok tt.
Proof.
  intros H. apply acceptedb_spec in H. now rewrite asserts_only, H.
Qed.

Lemma asserts_fail (v0 v1 : list A) :
  ~ accepted v0 v1 ->
  (assert (1 <=? length v0)%nat ;;;
   assert (1 <=? length v1)%nat ;;;
   assert (length v0 =? length v1)%nat)%py = Raise AssertionError.
Proof.
  intros H. rewrite asserts_only.
  destruct (acceptedb v0 v1) eqn:E; [|reflexivity].
  apply acceptedb_spec in E. contradiction.
Qed.

Lemma accepted_dec (v0 v1 : list A) : accepted v0 v1 \/ ~ accepted v0 v1.
Proof.
  destruct (acceptedb v0 v1) eqn:E.
  - left. now apply acceptedb_spec.
  - right. intros H. apply acceptedb_spec in H. congruence.
Qed.

(** A suspended generator yields one list per remaining cell of [v0] and
    stops; as many [next] calls as there are cells, and one more, exhaust
    it. *)
Lemma drain_suspended (v1 : list A) (rest : list A) :
  forall fuel,
    (length rest < fuel)%nat ->
    drain (overlap1d_next Aeq_dec) fuel (Suspended rest v1)
    = Some (Ok (map (matches Aeq_dec v1) rest)).
Proof.
  induction rest as [|i rest IH]; intros fuel Hf.
  - destruct fuel; [simpl in Hf; lia|]. reflexivity.
  - destruct fuel as [|fuel]; [simpl in Hf; lia|].
    cbn [drain overlap1d_next overlap1d_resume].
    rewrite IH by (simpl in Hf; lia). reflexivity.
Qed.

Lemma overlap1d_n_list_ok (v0 v1 : list A) (n : Z) :
  accepted v0 v1 ->
  overlap1d_n_list Aeq_dec v0 v1 n = Some (Ok (map (matches Aeq_dec v1) v0)).
Proof.
  intros H. unfold overlap1d_n_list, overlap1d_n.
  cbn [drain overlap1d_next]. rewrite (asserts_pass H).
  destruct v0 as [|i v0]; [reflexivity|].
  cbn [overlap1d_resume]. rewrite drain_suspended by (simpl; lia).
  reflexivity.
Qed.

Lemma overlap1d_n_list_refused (v0 v1 : list A) (n : Z) :
  ~ accepted v0 v1 ->
  overlap1d_n_list Aeq_dec v0 v1 n = Some (Raise AssertionError).
Proof.
  intros H. unfold overlap1d_n_list, overlap1d_n.
  cbn [drain overlap1d_next]. now rewrite (asserts_fail H).
Qed.

Lemma overlap1d_refused (v0 v1 : list A) :
  ~ accepted v0 v1 -> overlap1d Aeq_dec v0 v1 = Raise AssertionError.
Proof.
  intros H. unfold overlap1d. rewrite asserts_then.
  destruct (acceptedb v0 v1) eqn:E; [|reflexivity].
  apply acceptedb_spec in E. contradiction.
Qed.

(** C10 (with the time at which the lazy variant fails).  When [v0] or [v1]
    is empty, [overlap1d(v0, v1)] raises [AssertionError]; the call
    [overlap1d(v0, v1, n)] returns a generator that has not started, whose
    first [next] raises [AssertionError], so that [list(...)] of it raises
    too and no empty result is produced.  Either variant produces a result
    exactly for two non-empty lists of one length. *)
Theorem overlap1d_empty_refused (v0 v1 : list A) (n : Z) :
  (v0 = [] \/ v1 = [] ->
   overlap1d Aeq_dec v0 v1 = Raise AssertionError
   /\ overlap1d_n v0 v1 n = Ok (Created v0 v1 n)
   /\ overlap1d_next Aeq_dec (Created v0 v1 n) = Throw AssertionError
   /\ overlap1d_n_list Aeq_dec v0 v1 n = Some (Raise AssertionError))
  /\ ((exists r, overlap1d Aeq_dec v0 v1 = Ok r) <-> accepted v0 v1)
  /\ ((exists r, overlap1d_n_list Aeq_dec v0 v1 n = Some (Ok r))
      <-> accepted v0 v1).
Proof.
  split; [|split].
  - intros Hempty.
    assert (Hna : ~ accepted v0 v1).
    { intros (H0 & H1 & _). destruct Hempty; contradiction. }
    split; [now apply overlap1d_refused|]. split; [reflexivity|].
    split; [|now apply overlap1d_n_list_refused].
    cbn [overlap1d_next]. now rewrite (asserts_fail Hna).
  - split.
    + intros [r Hr]. destruct (accepted_dec v0 v1) as [H|H]; [exact H|].
      rewrite (overlap1d_refused H) in Hr. discriminate.
    + intros (H0 & _ & H2). rewrite overlap1d_ok by assumption. eauto.
  - split.
    + intros [r Hr]. destruct (accepted_dec v0 v1) as [H|H]; [exact H|].
      rewrite (overlap1d_n_list_refused n H) in Hr. discriminate.
    + intros H. rewrite overlap1d_n_list_ok by assumption. eauto.
Qed.

End ElementFacts.

Lemma unique_list_shrinks_idempotent_witness :
  exists u,
    unique_list Z.eq_dec [3; 1; 3; 2; 1]%Z = Ok u
    /\ (length u <= length [3; 1; 3; 2; 1]%Z)%nat
    /\ unique_list Z.eq_dec u = Ok u.
Proof.
  apply (@unique_list_shrinks_idempotent Z Z.eq_dec [3; 1; 3; 2; 1]%Z).
  discriminate.
Defined.

(** The empty list is refused, so no distinct list comes back for it. *)
Lemma unique_list_empty_refused :
  unique_list Z.eq_dec [] = Raise AssertionError
  /\ ~ exists u,
         unique_list Z.eq_dec [] = Ok u
         /\ (length u <= length (@nil Z))%nat
         /\ unique_list Z.eq_dec u = Ok u.
Proof.
  split; [reflexivity|]. intros (u & H & _). discriminate.
Qed.

Lemma overlap1d_agreeing_positions_witness :
  exists r,
    overlap1d string_dec ["A"; "B"; "A"]%string ["A"; "D"; "A"]%string = Ok r
    /\ (forall i x y,
          In (i, (x, y)) r
          <-> nth_error ["A"; "B"; "A"]%string i = Some x
              /\ nth_error ["A"; "D"; "A"]%string i = Some y /\ x = y)
    /\ NoDup (map fst r).
Proof.
  apply (@overlap1d_agreeing_positions _ string_dec
           ["A"; "B"; "A"]%string ["A"; "D"; "A"]%string).
  - discriminate.
  - reflexivity.
Defined.

Lemma overlap1d_empty_refused_witness :
  overlap1d Z.eq_dec [] [] = Raise AssertionError
  /\ overlap1d_n (@nil Z) [] 0 = Ok (Created (@nil Z) [] 0)
  /\ overlap1d_next Z.eq_dec (Created [] [] 0) = Throw AssertionError
  /\ overlap1d_n_list Z.eq_dec [] [] 0 = Some (Raise AssertionError).
Proof.
  apply (proj1 (@overlap1d_empty_refused Z Z.eq_dec [] [] 0)).
  left. reflexivity.
Defined.

(** Calling the generator function on empty lists raises nothing: it hands
    back a generator that has not started. *)
Lemma overlap1d_n_call_returns :
  overlap1d_n (@nil Z) [] 0 = Ok (Created (@nil Z) [] 0)
  /\ overlap1d_n (@nil Z) [] 0 <> Raise AssertionError.
Proof. split; [reflexivity|discriminate]. Qed.

End ListSpec.

(* ------------------------------------------------------------------ *)
(** * unique and overlap2d on arrays *)

Module ArraySpec.

Import Precision.

Section OrderedElementFacts.

Variable A : Type.
Variable Aeq_dec : forall x y : A, {x = y} + {x <> y}.
Variable leb : A -> A -> bool.

Lemma index_of_nth (u : list A) (x : A) :
  In x u ->
  (Numpy.index_of Aeq_dec x u < length u)%nat
  /\ nth_error u (Numpy.index_of Aeq_dec x u) = Some x.
Proof.
  induction u as [|y u IH]; simpl; [tauto|].
  intros H. destruct (Aeq_dec x y) as [->|Hne].
  - split; [lia|reflexivity].
  - destruct H as [H|H]; [congruence|].
    destruct (IH H) as [H1 H2]. split; [lia|exact H2].
Qed.

Lemma indicator_sum (u : list A) (a : A) :
  NoDup u -> In a u ->
  list_sum (map (fun x => if Aeq_dec a x then 1 else 0)%nat u) = 1%nat.
Proof.
  induction 1 as [|y u Hy Hu IH]; simpl; [tauto|].
  intros [->|Hin].
  - destruct (Aeq_dec a a) as [_|Hne]; [|congruence].
    f_equal. clear IH Hu. induction u as [|z u IHu]; simpl; [reflexivity|].
    destruct (Aeq_dec a z) as [->|_].
    + exfalso. apply Hy. now left.
    + apply IHu. intros H. apply Hy. now right.
  - destruct (Aeq_dec a y) as [->|_]; [contradiction|].
    simpl. now apply IH.
Qed.

Lemma list_sum_map_add (u : list A) (f g : A -> nat) :
  list_sum (map (fun x => f x + g x)%nat u)
  = (list_sum (map f u) + list_sum (map g u))%nat.
Proof. induction u as [|y u IH]; simpl; lia. Qed.

(** Counting every cell under its value counts every cell once. *)
Lemma count_sum (l u : list A) :
  NoDup u -> (forall x, In x l -> In x u) ->
  list_sum (map (count_occ Aeq_dec l) u) = length l.
Proof.
  intros Hu. induction l as [|a l IH]; intros Hin.
  - clear Hu Hin. induction u as [|y u IHu]; simpl; [reflexivity|exact IHu].
  - rewrite (map_ext (count_occ Aeq_dec (a :: l))
               (fun x => (if Aeq_dec a x then 1 else 0) + count_occ Aeq_dec l x)%nat).
    + rewrite list_sum_map_add, indicator_sum, IH; simpl; auto.
      * intros x Hx. apply Hin. now right.
      * apply Hin. now left.
    + intros x. simpl. destruct (Aeq_dec a x); reflexivity.
Qed.

Lemma unique_values_NoDup (l : list A) :
  NoDup (Numpy.sort leb (nodup Aeq_dec l)).
Proof. apply NumpyFacts.sort_NoDup, NoDup_nodup. Qed.

Lemma unique_values_In (l : list A) (x : A) :
  In x (Numpy.sort leb (nodup Aeq_dec l)) <-> In x l.
Proof. rewrite NumpyFacts.sort_In. apply nodup_In. Qed.

Lemma two_values_length (u : list A) (x y : A) :
  In x u -> In y u -> x <> y -> (1 < length u)%nat.
Proof.
  destruct u as [|a [|b u]]; simpl; intros Hx Hy Hne; try tauto; try lia.
  destruct Hx as [<-|[]]. destruct Hy as [<-|[]]. congruence.
Qed.

(** C2 (for inputs with at least two distinct values).  [unique] on such an
    array returns a record whose multiplicities add up to the input length
    and whose inverse index sends every position [i] to a valid cell of the
    distinct values, holding [l[i]]. *)
Theorem unique_stats_consistent (l : list A) :
  (exists x y, In x l /\ In y l /\ x <> y) ->
  exists r,
    unique_ndarray Aeq_dec leb l = Ok r /\ stats_consistent l r.
Proof.
  intros (x & y & Hx & Hy & Hne).
  set (u := Numpy.sort leb (nodup Aeq_dec l)).
  assert (Hlen : (1 <? length u)%nat = true).
  { apply Nat.ltb_lt. apply (@two_values_length u x y); auto;
      now apply unique_values_In. }
  assert (Hl : (1 <=? length l)%nat = true).
  { apply Nat.leb_le. destruct l; [contradiction|simpl; lia]. }
  eexists. split.
  - unfold unique_ndarray, Numpy.unique. fold u. rewrite Hl.
    cbn [assert bind]. rewrite Hlen. reflexivity.
  - split; cbn [multiplicity inverse_index distinct_values flatten].
    + apply count_sum; [apply unique_values_NoDup|].
      intros z Hz. now apply unique_values_In.
    + intros i z Hz. exists (Numpy.index_of Aeq_dec z u).
      assert (Hin : In z u).
      { apply unique_values_In. eapply nth_error_In; eauto. }
      destruct (index_of_nth u z Hin) as [H1 H2].
      split; [|split; assumption].
      apply (map_nth_error (fun x0 => Numpy.index_of Aeq_dec x0 u) i l Hz).
Qed.

Lemma nodup_constant (l : list A) (x : A) :
  l <> [] -> (forall y, In y l -> y = x) -> nodup Aeq_dec l = [x].
Proof.
  induction l as [|a l IH]; [congruence|]. intros _ Hall.
  assert (a = x) by (apply Hall; now left). subst a.
  simpl. destruct l as [|b l].
  - destruct (in_dec Aeq_dec x []) as [[]|_]. reflexivity.
  - destruct (in_dec Aeq_dec x (b :: l)) as [_|Hn].
    + apply IH; [discriminate|]. intros y Hy. apply Hall. now right.
    + exfalso. apply Hn. left. apply Hall. right. now left.
Qed.

Lemma count_constant (l : list A) (x : A) :
  (forall y, In y l -> y = x) -> count_occ Aeq_dec l x = length l.
Proof.
  induction l as [|a l IH]; intros Hall; simpl; [reflexivity|].
  destruct (Aeq_dec a x) as [_|Hne].
  - f_equal. apply IH. intros y Hy. apply Hall. now right.
  - exfalso. apply Hne. apply Hall. now left.
Qed.

Lemma inverse_constant (l : list A) (x : A) :
  (forall y, In y l -> y = x) ->
  map (fun y => Numpy.index_of Aeq_dec y [x]) l = repeat 0%nat (length l).
Proof.
  induction l as [|a l IH]; intros Hall; simpl; [reflexivity|].
  destruct (Aeq_dec a x) as [_|Hne].
  - f_equal. apply IH. intros y Hy. apply Hall. now right.
  - exfalso. apply Hne. apply Hall. now left.
Qed.

(** C7.  When every cell of a non-empty array holds the one value [x],
    [numpy.unique] computes the first index [[0]], the inverse index
    [[0, ..., 0]] and the multiplicity [[len(l)]], and [unique] returns in
    their place [[0]], [0] and [0]. *)
Theorem unique_single_value_collapses (l : list A) (x : A) :
  l <> [] ->
  (forall y, In y l -> y = x) ->
  Numpy.unique leb Aeq_dec l
  = ([x], [0%nat], repeat 0%nat (length l), [length l])
  /\ unique_ndarray Aeq_dec leb l
     = Ok (mk_unique_stats [x] (Vector [0%nat]) (Scalar 0) (Scalar 0)).
Proof.
  intros Hl Hall.
  assert (Hu : Numpy.unique leb Aeq_dec l
               = ([x], [0%nat], repeat 0%nat (length l), [length l])).
  { unfold Numpy.unique. rewrite (nodup_constant Hl Hall).
    cbn [Numpy.sort fold_right Numpy.insert map].
    rewrite inverse_constant, count_constant by exact Hall.
    destruct l as [|a l]; [congruence|].
    assert (a = x) by (apply Hall; now left). subst a.
    simpl. destruct (Aeq_dec x x); [reflexivity|congruence]. }
  split; [exact Hu|].
  unfold unique_ndarray. rewrite Hu.
  destruct l; [congruence|reflexivity].
Qed.

(** ** overlap2d *)

(** C5.  If [overlap2d(a, b)] returns the pair of index sequences
    [(ia, ib)], then [overlap2d(b, a)] returns [(ib, ia)]. *)
Theorem overlap2d_symmetric (a b : list A) (ia ib : list nat) :
  overlap2d leb a b = Ok (ia, ib) -> overlap2d leb b a = Ok (ib, ia).
Proof.
  unfold overlap2d. intros H. injection H as <- <-. reflexivity.
Qed.

Lemma overlap2d_returns (a b : list A) :
  exists ia ib, overlap2d leb a b = Ok (ia, ib).
Proof. unfold overlap2d. eauto. Qed.

End OrderedElementFacts.

(** ** What overlap2d returns *)

Section Overlap2dMeaning.

Variable A : Type.
Variable leb : A -> A -> bool.

Hypothesis leb_total : forall x y, leb x y = true \/ leb y x = true.
Hypothesis leb_trans :
  forall x y z, Numpy.le leb x y -> Numpy.le leb y z -> Numpy.le leb x z.
Hypothesis leb_antisym : forall x y, leb x y = true -> leb y x = true -> x = y.

Lemma enumerate_snd (l : list A) : map snd (enumerate l) = l.
Proof.
  unfold enumerate. generalize 0%nat.
  induction l as [|x l IH]; intros k; simpl; [reflexivity|].
  now rewrite IH.
Qed.

Lemma take_map_fst (a : list A) (L : list (nat * A)) :
  (forall i e, In (i, e) L -> nth_error a i = Some e) ->
  Numpy.take a (map fst L) = map snd L.
Proof.
  induction L as [|[i e] L IH]; intros H; simpl; [reflexivity|].
  rewrite (H i e) by now left. simpl. f_equal.
  apply IH. intros j x Hin. apply H. now right.
Qed.

Lemma argsort_cells (a : list A) (i : nat) (e : A) :
  In (i, e) (Numpy.sort (Numpy.by_value leb) (enumerate a)) <-> nth_error a i = Some e.
Proof. rewrite NumpyFacts.sort_In. apply ListSpec.In_enumerate. Qed.

(** [a[argsort(a)]] lists the values of the sorted pairs. *)
Lemma take_argsort (a : list A) :
  Numpy.take a (Numpy.argsort leb a)
  = map snd (Numpy.sort (Numpy.by_value leb) (enumerate a)).
Proof.
  unfold Numpy.argsort. apply take_map_fst.
  intros i e. apply argsort_cells.
Qed.

Lemma take_argsort_In (a : list A) (x : A) :
  In x (Numpy.take a (Numpy.argsort leb a)) <-> In x a.
Proof.
  rewrite take_argsort. rewrite <- (enumerate_snd a) at 2.
  rewrite !in_map_iff. split; intros (p & Hp & Hin); exists p; split; auto.
  - now apply NumpyFacts.sort_In in Hin.
  - now apply NumpyFacts.sort_In.
Qed.

Lemma StronglySorted_map_snd (L : list (nat * A)) :
  StronglySorted (Numpy.le (Numpy.by_value leb)) L ->
  StronglySorted (Numpy.le leb) (map snd L).
Proof.
  induction 1 as [|p L HL IH Hp]; simpl; constructor; auto.
  rewrite Forall_forall in *. intros x Hx. apply in_map_iff in Hx.
  destruct Hx as (q & <- & Hq). now apply Hp.
Qed.

(** [a[argsort(a)]] is in ascending order. *)
Lemma take_argsort_sorted (a : list A) :
  StronglySorted (Numpy.le leb) (Numpy.take a (Numpy.argsort leb a)).
Proof.
  rewrite take_argsort. apply StronglySorted_map_snd.
  apply NumpyFacts.sort_StronglySorted.
  - intros p q. apply leb_total.
  - intros p q r. apply leb_trans.
Qed.

(** In a sorted array the range between the left and the right insertion
    point of [x] is non-empty exactly when [x] occurs in the array. *)
Lemma searchsorted_range (s : list A) (x : A) :
  StronglySorted (Numpy.le leb) s ->
  (Numpy.searchsorted_left leb s x < Numpy.searchsorted_right leb s x)%nat
  <-> In x s.
Proof.
  induction 1 as [|y s Hs IH Hy]; simpl; [split; [lia|tauto]|].
  destruct (leb x y) eqn:Exy, (leb y x) eqn:Eyx.
  - split; [|lia]. intros _. left. symmetry. now apply leb_antisym.
  - split; [lia|]. intros [->|Hin]; [congruence|].
    rewrite Forall_forall in Hy. apply Hy in Hin. unfold Numpy.le in Hin.
    congruence.
  - rewrite <- Nat.succ_lt_mono, IH. split; [tauto|].
    intros [->|Hin]; [congruence|exact Hin].
  - destruct (leb_total x y); congruence.
Qed.

Lemma range_nonempty_map (f g : A -> nat) (l : list A) :
  Numpy.range_nonempty (map f l) (map g l) = map (fun x => (g x <? f x)%nat) l.
Proof.
  unfold Numpy.range_nonempty.
  induction l as [|x l IH]; simpl; [reflexivity|].
  rewrite IH. f_equal.
  destruct (g x <? f x)%nat eqn:E.
  - apply Nat.ltb_lt in E. apply Z.ltb_lt. lia.
  - apply Nat.ltb_ge in E. apply Z.ltb_ge. lia.
Qed.

Lemma nonzero_In (mask : list bool) (k : nat) :
  In k (Numpy.nonzero mask) <-> nth_error mask k = Some true.
Proof.
  unfold Numpy.nonzero. rewrite in_map_iff. split.
  - intros ([k' b] & Hk & Hin). simpl in Hk. subst k'.
    apply filter_In in Hin. destruct Hin as [Hin Hb]. simpl in Hb. subst b.
    now apply ListSpec.In_enumerate.
  - intros H. exists (k, true). split; [reflexivity|].
    apply filter_In. split; [|reflexivity]. now apply ListSpec.In_enumerate.
Qed.

Lemma take_In (B : Type) (a : list B) (idx : list nat) (x : B) :
  In x (Numpy.take a idx) <-> exists k, In k idx /\ nth_error a k = Some x.
Proof.
  unfold Numpy.take. rewrite in_flat_map. split.
  - intros (k & Hk & Hx). exists k. split; [exact Hk|].
    destruct (nth_error a k); simpl in Hx; [|contradiction].
    destruct Hx as [->|[]]. reflexivity.
  - intros (k & Hk & Hx). exists k. split; [exact Hk|].
    rewrite Hx. now left.
Qed.

(** The indices [overlap2d] selects in one vector: those whose value occurs
    in the other vector. *)
Lemma overlap2d_selection (a b : list A) (i : nat) :
  let a1 := Numpy.argsort leb a in
  let sa := Numpy.take a a1 in
  let sb := Numpy.take b (Numpy.argsort leb b) in
  In i (Numpy.take a1
          (Numpy.nonzero
             (Numpy.range_nonempty
                (map (Numpy.searchsorted_right leb sb) sa)
                (map (Numpy.searchsorted_left leb sb) sa))))
  <-> exists x, nth_error a i = Some x /\ In x b.
Proof.
  intros a1 sa sb.
  rewrite take_In. setoid_rewrite nonzero_In.
  rewrite range_nonempty_map.
  set (L := Numpy.sort (Numpy.by_value leb) (enumerate a)).
  assert (Ha1 : a1 = map fst L) by reflexivity.
  assert (Hsa : sa = map snd L) by apply take_argsort.
  rewrite Ha1, Hsa. split.
  - intros (k & Hmask & Hk).
    rewrite nth_error_map in Hk, Hmask. rewrite nth_error_map in Hmask.
    destruct (nth_error L k) as [[j e]|] eqn:E; simpl in *; [|discriminate].
    injection Hk as ->. injection Hmask as Hmask.
    exists e. split.
    + apply argsort_cells. fold L. apply (nth_error_In _ _ E).
    + apply Nat.ltb_lt in Hmask. apply searchsorted_range in Hmask.
      * exact (proj1 (take_argsort_In b e) Hmask).
      * apply take_argsort_sorted.
  - intros (x & Hx & Hin).
    apply argsort_cells in Hx. fold L in Hx.
    apply In_nth_error in Hx. destruct Hx as [k Hk].
    exists k. rewrite !nth_error_map, Hk. simpl. split; [|reflexivity].
    f_equal. apply Nat.ltb_lt. apply searchsorted_range.
    + apply take_argsort_sorted.
    + exact (proj2 (take_argsort_In b x) Hin).
Qed.

(** X14.  Under a total order, what [overlap2d] returns: the positions of
    [a] whose value occurs in [b], and the positions of [b] whose value
    occurs in [a]. *)
Lemma overlap2d_intersection (a b : list A) (ia ib : list nat) :
  overlap2d leb a b = Ok (ia, ib) ->
  (forall i, In i ia <-> exists x, nth_error a i = Some x /\ In x b)
  /\ (forall j, In j ib <-> exists y, nth_error b j = Some y /\ In y a).
Proof.
  unfold overlap2d. intros H. injection H as <- <-.
  split; intros i; apply overlap2d_selection.
Qed.

End Overlap2dMeaning.

Lemma unique_stats_consistent_witness :
  exists r,
    unique_ndarray Z.eq_dec Z.leb [0; 1; 1; 2]%Z = Ok r
    /\ stats_consistent [0; 1; 1; 2]%Z r.
Proof.
  apply (@unique_stats_consistent Z Z.eq_dec Z.leb [0; 1; 1; 2]%Z).
  exists 0%Z, 1%Z. simpl. repeat split; auto. discriminate.
Defined.

(** With one distinct value the multiplicity cell holds 0, not the length. *)
Lemma unique_stats_single_value_inconsistent :
  exists r,
    unique_ndarray Z.eq_dec Z.leb [5]%Z = Ok r
    /\ ~ stats_consistent [5]%Z r.
Proof.
  eexists. split; [reflexivity|].
  intros [H _]. simpl in H. discriminate.
Qed.

Lemma unique_single_value_collapses_witness :
  Numpy.unique Z.leb Z.eq_dec [5; 5; 5]%Z
  = ([5%Z], [0%nat], repeat 0%nat (length [5; 5; 5]%Z), [length [5; 5; 5]%Z])
  /\ unique_ndarray Z.eq_dec Z.leb [5; 5; 5]%Z
     = Ok (mk_unique_stats [5%Z] (Vector [0%nat]) (Scalar 0) (Scalar 0)).
Proof.
  apply (@unique_single_value_collapses Z Z.eq_dec Z.leb [5; 5; 5]%Z 5%Z).
  - discriminate.
  - simpl. intros y [H|[H|[H|[]]]]; now symmetry.
Defined.

Lemma overlap2d_symmetric_witness :
  overlap2d Z.leb [4; 6; 10; 9; 1]%Z [1; 2; 4; 5]%Z
  = Ok ([4; 0]%nat, [0; 2]%nat).
Proof.
  apply (@overlap2d_symmetric Z Z.leb [1; 2; 4; 5]%Z [4; 6; 10; 9; 1]%Z).
  reflexivity.
Defined.

End ArraySpec.

(* ------------------------------------------------------------------ *)
(** * quantile: the arrays handed to [numpy.interp] *)

Module QuantileMore.

Import Numpy InterpFacts Precision QuantileSpec.
Local Open Scope Q_scope.
Local Open Scope py_scope.

Lemma sort_Q_sorted (v : list Q) : StronglySorted Qle (sort Qle_bool v).
Proof.
  assert (H : StronglySorted (le Qle_bool) (sort Qle_bool v)).
  { apply NumpyFacts.sort_StronglySorted.
    - apply Qle_bool_total.
    - apply Qle_bool_trans. }
  induction H as [|x l Hl IH Hx]; constructor; auto.
  eapply Forall_impl; [|exact Hx]. intros y Hy. now apply Qle_bool_iff.
Qed.

Lemma quantile_interp_ready (v : list Q) :
  v <> [] ->
  length (positions (length v)) = length (sort Qle_bool v)
  /\ positions (length v) <> [].
Proof.
  intros Hv.
  assert (Hlen : length (positions (length v)) = length (sort Qle_bool v)).
  { now rewrite positions_length, NumpyFacts.sort_length. }
  split; [exact Hlen|]. intros E. rewrite E in Hlen. simpl in Hlen.
  rewrite NumpyFacts.sort_length in Hlen. destruct v; [congruence|discriminate].
Qed.

End QuantileMore.

(* ------------------------------------------------------------------ *)
(** * unique(l, n): the numbering of the distinct values *)

Module RankSpec.

Import Precision.
Local Open Scope py_scope.

Section DictFacts.

Variable K : Type.
Variable Keq_dec : forall x y : K, {x = y} + {x <> y}.
Variable V : Type.

Lemma dict_set_new (d : dict K V) (k : K) (v : V) :
  ~ In k (map fst d) -> dict_set Keq_dec d k v = d ++ [(k, v)].
Proof.
  induction d as [|[k' v'] d IH]; simpl; intros H; [reflexivity|].
  destruct (Keq_dec k k') as [->|Hne]; [tauto|].
  rewrite IH; tauto.
Qed.

Lemma dict_fold_distinct (pairs : list (K * V)) :
  forall d : dict K V,
    NoDup (map fst (d ++ pairs)) ->
    fold_left (fun d kv => dict_set Keq_dec d (fst kv) (snd kv)) pairs d
    = d ++ pairs.
Proof.
  induction pairs as [|[k v] pairs IH]; intros d H; simpl.
  - now rewrite app_nil_r.
  - rewrite dict_set_new.
    + rewrite IH; rewrite <- app_assoc; simpl; auto.
    + rewrite map_app in H. simpl in H. apply NoDup_remove_2 in H.
      intros Hin. apply H. apply in_or_app. now left.
Qed.

(** With pairwise distinct keys [dict(pairs)] holds the pairs as given. *)
Lemma dict_of_distinct (pairs : list (K * V)) :
  NoDup (map fst pairs) -> dict_of Keq_dec pairs = pairs.
Proof. intros H. unfold dict_of. now rewrite dict_fold_distinct. Qed.

End DictFacts.

Section RankFacts.

Variable A : Type.
Variable Aeq_dec : forall x y : A, {x = y} + {x <> y}.
Variable leb : A -> A -> bool.

Lemma zip_count_fst (keys : list A) :
  forall n, map fst (zip_count keys n) = keys.
Proof.
  induction keys as [|k keys IH]; intros n; simpl; [reflexivity|].
  now rewrite IH.
Qed.

Lemma zip_count_snd (keys : list A) :
  forall n,
    map snd (zip_count keys n)
    = map (fun i => (n + Z.of_nat i)%Z) (seq 0 (length keys)).
Proof.
  induction keys as [|k keys IH]; intros n; simpl; [reflexivity|].
  rewrite Z.add_0_r. f_equal. rewrite IH, <- seq_shift, map_map.
  apply map_ext. intros i. lia.
Qed.

Lemma zip_count_get (keys : list A) :
  forall n x,
    In x keys ->
    dict_get Aeq_dec (zip_count keys n) x
    = Some (n + Z.of_nat (Numpy.index_of Aeq_dec x keys))%Z.
Proof.
  induction keys as [|k keys IH]; intros n x Hin; simpl; [contradiction|].
  destruct (Aeq_dec x k) as [->|Hne].
  - now rewrite Z.add_0_r.
  - destruct Hin as [->|Hin]; [congruence|].
    rewrite IH by exact Hin. f_equal. lia.
Qed.

Lemma zip_count_get_none (keys : list A) :
  forall n x, ~ In x keys -> dict_get Aeq_dec (zip_count keys n) x = None.
Proof.
  induction keys as [|k keys IH]; intros n x Hin; simpl; [reflexivity|].
  destruct (Aeq_dec x k) as [->|Hne].
  - exfalso. apply Hin. now left.
  - apply IH. intros H. apply Hin. now right.
Qed.

Lemma sorted_set_NoDup (l : list A) : NoDup (sorted_set Aeq_dec leb l).
Proof. apply NumpyFacts.sort_NoDup, NoDup_nodup. Qed.

Lemma sorted_set_In (l : list A) (x : A) :
  In x (sorted_set Aeq_dec leb l) <-> In x l.
Proof. unfold sorted_set. rewrite NumpyFacts.sort_In. apply nodup_In. Qed.

Lemma unique_count_ok (l : list A) (n : Z) :
  l <> [] -> (0 <= n)%Z ->
  unique_count Aeq_dec leb l n = Ok (zip_count (sorted_set Aeq_dec leb l) n).
Proof.
  intros Hl Hn. unfold unique_count.
  destruct l as [|a l]; [congruence|]. cbn [length Nat.leb assert bind].
  apply Z.leb_le in Hn. rewrite Hn. cbn [assert bind].
  rewrite dict_of_distinct; [reflexivity|].
  rewrite zip_count_fst. apply sorted_set_NoDup.
Qed.

(** X4.  For a non-empty list and a start [n >= 0], [unique(l, n)] returns
    a dict whose keys are the distinct values of [l] as [sorted] orders them
    and whose values are [n], [n+1], ... in that order: the value under an
    element [x] of [l] is [n] plus the position of [x] among the sorted
    distinct values, and nothing else is a key. *)
Theorem unique_count_ranks (l : list A) (n : Z) :
  l <> [] ->
  (0 <= n)%Z ->
  exists d,
    unique_count Aeq_dec leb l n = Ok d
    /\ map fst d = sorted_set Aeq_dec leb l
    /\ map snd d
       = map (fun i => (n + Z.of_nat i)%Z)
             (seq 0 (length (sorted_set Aeq_dec leb l)))
    /\ (forall x, In x l ->
          dict_get Aeq_dec d x
          = Some (n + Z.of_nat (Numpy.index_of Aeq_dec x
                                   (sorted_set Aeq_dec leb l)))%Z)
    /\ (forall x, ~ In x l -> dict_get Aeq_dec d x = None).
Proof.
  intros Hl Hn. eexists. split; [now apply unique_count_ok|].
  split; [apply zip_count_fst|]. split; [apply zip_count_snd|]. split.
  - intros x Hx. apply zip_count_get. now apply sorted_set_In.
  - intros x Hx. apply zip_count_get_none. now rewrite sorted_set_In.
Qed.

(** [unique(l, n)] raises for an empty list and for a negative start. *)
Lemma unique_count_refused (l : list A) (n : Z) :
  l = [] \/ (n < 0)%Z -> unique_count Aeq_dec leb l n = Raise AssertionError.
Proof.
  intros [->|Hn]; [reflexivity|]. unfold unique_count.
  destruct (1 <=? length l)%nat; [|reflexivity]. cbn [assert bind].
  apply Z.leb_gt in Hn. now rewrite Hn.
Qed.

Hypothesis leb_total : forall x y, leb x y = true \/ leb y x = true.
Hypothesis leb_trans :
  forall x y z, Numpy.le leb x y -> Numpy.le leb y z -> Numpy.le leb x z.
Hypothesis leb_antisym : forall x y, leb x y = true -> leb y x = true -> x = y.

Lemma leb_refl (x : A) : leb x x = true.
Proof. destruct (leb_total x x); assumption. Qed.

(** In a sorted list the positions follow the order of the values. *)
Lemma index_of_sorted (keys : list A) (x y : A) :
  StronglySorted (Numpy.le leb) keys ->
  In x keys -> In y keys ->
  ((Numpy.index_of Aeq_dec x keys <= Numpy.index_of Aeq_dec y keys)%nat
   <-> leb x y = true).
Proof.
  induction 1 as [|k keys Hs IH Hk]; simpl; [tauto|].
  intros Hx Hy. rewrite Forall_forall in Hk.
  destruct (Aeq_dec x k) as [->|Hxk], (Aeq_dec y k) as [->|Hyk].
  - split; [intros _; apply leb_refl|lia].
  - split; [|lia]. intros _. destruct Hy as [->|Hy]; [congruence|].
    now apply Hk.
  - split; [lia|]. intros Hle. exfalso. apply Hxk.
    destruct Hx as [->|Hx]; [congruence|].
    apply leb_antisym; [exact Hle|now apply Hk].
  - destruct Hx as [->|Hx]; [congruence|].
    destruct Hy as [->|Hy]; [congruence|].
    rewrite <- Nat.succ_le_mono. now apply IH.
Qed.

Lemma sorted_set_sorted (l : list A) :
  StronglySorted (Numpy.le leb) (sorted_set Aeq_dec leb l).
Proof. apply NumpyFacts.sort_StronglySorted; assumption. Qed.

(** X5.  Under a total order the numbers that [unique(l, n)] hands out
    follow the order of the values: for elements [x] and [y] of [l], the
    number of [x] is at most the number of [y] exactly when [x <= y], and
    the two numbers are equal only when [x] is [y]. *)
Theorem unique_count_order (l : list A) (n : Z) (x y : A) :
  l <> [] ->
  (0 <= n)%Z ->
  In x l -> In y l ->
  exists d rx ry,
    unique_count Aeq_dec leb l n = Ok d
    /\ dict_get Aeq_dec d x = Some rx
    /\ dict_get Aeq_dec d y = Some ry
    /\ ((rx <= ry)%Z <-> leb x y = true)
    /\ (rx = ry <-> x = y).
Proof.
  intros Hl Hn Hx Hy.
  set (keys := sorted_set Aeq_dec leb l).
  assert (Hkx : In x keys) by now apply sorted_set_In.
  assert (Hky : In y keys) by now apply sorted_set_In.
  pose proof (@index_of_sorted keys x y (sorted_set_sorted l) Hkx Hky) as Hxy.
  pose proof (@index_of_sorted keys y x (sorted_set_sorted l) Hky Hkx) as Hyx.
  exists (zip_count keys n),
         (n + Z.of_nat (Numpy.index_of Aeq_dec x keys))%Z,
         (n + Z.of_nat (Numpy.index_of Aeq_dec y keys))%Z.
  split; [now apply unique_count_ok|].
  split; [now apply zip_count_get|]. split; [now apply zip_count_get|].
  split.
  - rewrite <- Hxy. lia.
  - split.
    + intros E. apply leb_antisym; [apply Hxy|apply Hyx]; lia.
    + intros ->. reflexivity.
Qed.

End RankFacts.

Lemma Zleb_total (x y : Z) : (x <=? y)%Z = true \/ (y <=? x)%Z = true.
Proof. rewrite !Z.leb_le. lia. Qed.

Lemma Zleb_trans (x y z : Z) :
  Numpy.le Z.leb x y -> Numpy.le Z.leb y z -> Numpy.le Z.leb x z.
Proof. unfold Numpy.le. rewrite !Z.leb_le. lia. Qed.

Lemma Zleb_antisym (x y : Z) :
  (x <=? y)%Z = true -> (y <=? x)%Z = true -> x = y.
Proof. rewrite !Z.leb_le. lia. Qed.

Lemma unique_count_ranks_witness :
  exists d,
    unique_count Z.eq_dec Z.leb [7; 0; 7; 3]%Z 4 = Ok d
    /\ map fst d = sorted_set Z.eq_dec Z.leb [7; 0; 7; 3]%Z
    /\ map snd d
       = map (fun i => (4 + Z.of_nat i)%Z)
             (seq 0 (length (sorted_set Z.eq_dec Z.leb [7; 0; 7; 3]%Z)))
    /\ (forall x, In x [7; 0; 7; 3]%Z ->
          dict_get Z.eq_dec d x
          = Some (4 + Z.of_nat (Numpy.index_of Z.eq_dec x
                                   (sorted_set Z.eq_dec Z.leb [7; 0; 7; 3]%Z)))%Z)
    /\ (forall x, ~ In x [7; 0; 7; 3]%Z -> dict_get Z.eq_dec d x = None).
Proof.
  apply (@unique_count_ranks Z Z.eq_dec Z.leb [7; 0; 7; 3]%Z 4%Z).
  - discriminate.
  - lia.
Defined.

Lemma unique_count_order_witness :
  exists d rx ry,
    unique_count Z.eq_dec Z.leb [7; 0; 7; 3]%Z 4 = Ok d
    /\ dict_get Z.eq_dec d 3%Z = Some rx
    /\ dict_get Z.eq_dec d 7%Z = Some ry
    /\ ((rx <= ry)%Z <-> (3 <=? 7)%Z = true)
    /\ (rx = ry <-> 3%Z = 7%Z).
Proof.
  apply (@unique_count_order Z Z.eq_dec Z.leb Zleb_total Zleb_trans
           Zleb_antisym [7; 0; 7; 3]%Z 4%Z 3%Z 7%Z).
  - discriminate.
  - lia.
  - simpl. tauto.
  - simpl. tauto.
Defined.

End RankSpec.

(* ------------------------------------------------------------------ *)
(** * unique: order of first appearance, record cells, the three overloads *)

Module UniqueMore.

Import Precision.
Local Open Scope py_scope.

Section FirstSeen.

Variable A : Type.
Variable Aeq_dec : forall x y : A, {x = y} + {x <> y}.

Lemma index_of_app_l (x : A) (l1 l2 : list A) :
  In x l1 ->
  Numpy.index_of Aeq_dec x (l1 ++ l2) = Numpy.index_of Aeq_dec x l1.
Proof.
  induction l1 as [|a l1 IH]; simpl; [tauto|]. intros H.
  destruct (Aeq_dec x a) as [->|Hne]; [reflexivity|].
  destruct H as [->|H]; [congruence|]. now rewrite IH.
Qed.

Lemma index_of_app_r (x : A) (l1 l2 : list A) :
  ~ In x l1 ->
  Numpy.index_of Aeq_dec x (l1 ++ l2)
  = (length l1 + Numpy.index_of Aeq_dec x l2)%nat.
Proof.
  induction l1 as [|a l1 IH]; simpl; [reflexivity|]. intros H.
  destruct (Aeq_dec x a) as [->|Hne]; [tauto|].
  rewrite IH; tauto.
Qed.

Lemma index_of_lt (x : A) (l : list A) :
  In x l -> (Numpy.index_of Aeq_dec x l < length l)%nat.
Proof.
  induction l as [|a l IH]; simpl; [tauto|]. intros H.
  destruct (Aeq_dec x a) as [->|Hne]; [lia|].
  destruct H as [->|H]; [congruence|]. apply IH in H. lia.
Qed.

Lemma index_of_hit (x : A) (l : list A) :
  In x l -> nth_error l (Numpy.index_of Aeq_dec x l) = Some x.
Proof.
  induction l as [|a l IH]; simpl; [tauto|]. intros H.
  destruct (Aeq_dec x a) as [->|Hne]; [reflexivity|].
  destruct H as [->|H]; [congruence|]. now apply IH.
Qed.

(** No position before [index_of x l] holds [x]. *)
Lemma index_of_first (x : A) (l : list A) (j : nat) :
  (j < Numpy.index_of Aeq_dec x l)%nat -> nth_error l j <> Some x.
Proof.
  revert j. induction l as [|a l IH]; simpl; intros j Hj; [lia|].
  destruct (Aeq_dec x a) as [->|Hne]; [lia|].
  destruct j as [|j]; simpl.
  - congruence.
  - apply IH. lia.
Qed.

Lemma StronglySorted_snoc (l : list nat) (a : nat) :
  StronglySorted lt l -> Forall (fun b => b < a)%nat l ->
  StronglySorted lt (l ++ [a]).
Proof.
  induction 1 as [|b l Hl IH Hb]; simpl; intros H.
  - repeat constructor.
  - inversion H as [|? ? Hba Hla]; subst. constructor; [now apply IH|].
    apply Forall_app. split; [exact Hb|]. now constructor.
Qed.

(** The elements collected so far stand in the order of their first
    positions in the whole list. *)
Lemma unique_fold_first_seen (l2 : list A) :
  forall l1 acc,
    (forall x, In x acc <-> In x l1) ->
    StronglySorted lt
      (map (fun x => Numpy.index_of Aeq_dec x (l1 ++ l2)) acc) ->
    StronglySorted lt
      (map (fun x => Numpy.index_of Aeq_dec x (l1 ++ l2))
           (fold_left (unique_step Aeq_dec) l2 acc)).
Proof.
  induction l2 as [|a l2 IH]; intros l1 acc Hin Hs; simpl; [exact Hs|].
  replace (l1 ++ a :: l2) with ((l1 ++ [a]) ++ l2) in *
    by (rewrite <- app_assoc; reflexivity).
  apply IH.
  - intros x. unfold unique_step.
    destruct (contains Aeq_dec acc a) eqn:E; simpl.
    + apply ListSpec.contains_true in E. rewrite in_app_iff, Hin. simpl.
      split; [tauto|]. intros [H|[<-|[]]]; [exact H|now apply Hin].
    + rewrite !in_app_iff, Hin. reflexivity.
  - unfold unique_step.
    destruct (contains Aeq_dec acc a) eqn:E; simpl; [exact Hs|].
    apply ListSpec.contains_false in E.
    rewrite map_app. simpl. apply StronglySorted_snoc; [exact Hs|].
    apply Forall_forall. intros b Hb. apply in_map_iff in Hb.
    destruct Hb as (y & <- & Hy).
    assert (Hy1 : In y l1) by now apply Hin.
    assert (Ha1 : ~ In a l1) by now rewrite <- Hin.
    rewrite <- !app_assoc. simpl.
    rewrite index_of_app_l by exact Hy1.
    rewrite index_of_app_r by exact Ha1. simpl.
    destruct (Aeq_dec a a) as [_|Hne]; [|congruence].
    pose proof (index_of_lt y l1 Hy1). lia.
Qed.

(** X6.  For a non-empty list, [unique(l)] returns every value of [l]
    once, and nothing else, in the order in which the values first appear
    in [l]. *)
Theorem unique_list_first_seen (l : list A) :
  l <> [] ->
  exists u,
    unique_list Aeq_dec l = Ok u
    /\ NoDup u
    /\ (forall x, In x u <-> In x l)
    /\ StronglySorted lt (map (fun x => Numpy.index_of Aeq_dec x l) u).
Proof.
  intros Hl. exists (fold_left (unique_step Aeq_dec) l []).
  split; [now apply ListSpec.unique_list_ok|].
  split; [apply ListSpec.unique_fold_NoDup; constructor|].
  split.
  - intros x. rewrite ListSpec.unique_fold_In. simpl. tauto.
  - apply (@unique_fold_first_seen l [] []).
    + intros x. reflexivity.
    + constructor.
Qed.

End FirstSeen.

Lemma unique_list_first_seen_witness :
  exists u,
    unique_list Z.eq_dec [3; 1; 3; 2; 1]%Z = Ok u
    /\ NoDup u
    /\ (forall x, In x u <-> In x [3; 1; 3; 2; 1]%Z)
    /\ StronglySorted lt
         (map (fun x => Numpy.index_of Z.eq_dec x [3; 1; 3; 2; 1]%Z) u).
Proof.
  apply (@unique_list_first_seen Z Z.eq_dec [3; 1; 3; 2; 1]%Z).
  discriminate.
Defined.

Section UniqueOverloads.

Variable A : Type.
Variable Aeq_dec : forall x y : A, {x = y} + {x <> y}.
Variable leb : A -> A -> bool.

Hypothesis leb_total : forall x y, leb x y = true \/ leb y x = true.
Hypothesis leb_trans :
  forall x y z, Numpy.le leb x y -> Numpy.le leb y z -> Numpy.le leb x z.

(** The distinct values and the first-index cell of the record, in either
    branch of [unique] on an array. *)
Lemma unique_ndarray_cells (l : list A) :
  l <> [] ->
  exists r,
    unique_ndarray Aeq_dec leb l = Ok r
    /\ distinct_values r = Numpy.sort leb (nodup Aeq_dec l)
    /\ flatten (first_index r)
       = map (fun x => Numpy.index_of Aeq_dec x l) (distinct_values r).
Proof.
  intros Hl. unfold unique_ndarray, Numpy.unique.
  set (a := Numpy.sort leb (nodup Aeq_dec l)).
  destruct l as [|x0 l]; [congruence|]. cbn [length Nat.leb assert bind].
  destruct (1 <? length a)%nat eqn:E.
  - eexists. split; [reflexivity|]. split; [reflexivity|].
    cbn [first_index distinct_values flatten concat]. now rewrite app_nil_r.
  - eexists. split; [reflexivity|]. split; [reflexivity|].
    cbn [first_index distinct_values flatten].
    apply Nat.ltb_ge in E.
    assert (Hx0 : In x0 a).
    { unfold a. apply NumpyFacts.sort_In, nodup_In. now left. }
    destruct a as [|y [|z a']]; simpl in E; [contradiction| |lia].
    destruct Hx0 as [->|[]]. simpl.
    destruct (Aeq_dec x0 x0); [reflexivity|congruence].
Qed.

(** X7.  On a non-empty array, whatever the number of distinct values, the
    record that [unique] returns lists the values of the array once each in
    ascending order, and its first-index cell gives for each of them the
    first position that holds it. *)
Theorem unique_ndarray_values_and_first_index (l : list A) :
  l <> [] ->
  exists r,
    unique_ndarray Aeq_dec leb l = Ok r
    /\ NoDup (distinct_values r)
    /\ (forall x, In x (distinct_values r) <-> In x l)
    /\ StronglySorted (Numpy.le leb) (distinct_values r)
    /\ Forall2
         (fun x i => nth_error l i = Some x
                     /\ forall j, (j < i)%nat -> nth_error l j <> Some x)
         (distinct_values r) (flatten (first_index r)).
Proof.
  intros Hl. destruct (unique_ndarray_cells Hl) as (r & Hr & Ha & Hb).
  exists r. split; [exact Hr|]. rewrite Hb, Ha.
  assert (Hin : forall x, In x (Numpy.sort leb (nodup Aeq_dec l)) <-> In x l).
  { intros x. rewrite NumpyFacts.sort_In. apply nodup_In. }
  split; [apply NumpyFacts.sort_NoDup, NoDup_nodup|].
  split; [exact Hin|].
  split; [now apply NumpyFacts.sort_StronglySorted|].
  assert (H : forall u, (forall x, In x u -> In x l) ->
                        Forall2
                          (fun x i => nth_error l i = Some x
                                      /\ forall j, (j < i)%nat ->
                                                   nth_error l j <> Some x)
                          u (map (fun x => Numpy.index_of Aeq_dec x l) u)).
  { induction u as [|x u IH]; intros Hu; simpl; constructor.
    - split.
      + apply index_of_hit. apply Hu. now left.
      + intros j. apply index_of_first.
    - apply IH. intros y Hy. apply Hu. now right. }
  apply H. intros x. apply Hin.
Qed.

Hypothesis leb_antisym : forall x y, leb x y = true -> leb y x = true -> x = y.

(** Two sorted lists with the same elements, each once, are one list. *)
Lemma sorted_perm_unique (l1 : list A) :
  forall l2,
    StronglySorted (Numpy.le leb) l1 ->
    StronglySorted (Numpy.le leb) l2 ->
    Permutation l1 l2 ->
    l1 = l2.
Proof.
  induction l1 as [|x l1 IH]; intros l2 H1 H2 Hp.
  - apply Permutation_nil in Hp. now subst.
  - destruct l2 as [|y l2].
    + apply Permutation_sym, Permutation_nil in Hp. discriminate.
    + apply StronglySorted_inv in H1. destruct H1 as [H1 Hx].
      apply StronglySorted_inv in H2. destruct H2 as [H2 Hy].
      rewrite Forall_forall in Hx, Hy.
      assert (Hrefl : forall z, leb z z = true).
      { intros z. destruct (leb_total z z); assumption. }
      assert (Hxy : leb x y = true).
      { assert (Hin : In y (x :: l1)).
        { apply (Permutation_in _ (Permutation_sym Hp)). now left. }
        destruct Hin as [->|Hin]; [apply Hrefl|now apply Hx]. }
      assert (Hyx : leb y x = true).
      { assert (Hin : In x (y :: l2)).
        { apply (Permutation_in _ Hp). now left. }
        destruct Hin as [->|Hin]; [apply Hrefl|now apply Hy]. }
      assert (x = y) by now apply leb_antisym. subst y.
      f_equal. apply IH; auto.
      now apply Permutation_cons_inv in Hp.
Qed.

(** X8.  The three overloads of [unique] agree on the distinct values of a
    non-empty list: the keys of the dict of [unique(l, n)] are the distinct
    values in the record of [unique] on the array, and sorting the list that
    [unique(l)] returns gives them too. *)
Theorem unique_overloads_agree (l : list A) (n : Z) :
  l <> [] ->
  (0 <= n)%Z ->
  exists u d r,
    unique_list Aeq_dec l = Ok u
    /\ unique_count Aeq_dec leb l n = Ok d
    /\ unique_ndarray Aeq_dec leb l = Ok r
    /\ map fst d = distinct_values r
    /\ Numpy.sort leb u = distinct_values r
    /\ length u = length (distinct_values r).
Proof.
  intros Hl Hn. destruct (unique_ndarray_cells Hl) as (r & Hr & Ha & _).
  exists (fold_left (unique_step Aeq_dec) l []),
         (zip_count (sorted_set Aeq_dec leb l) n), r.
  split; [now apply ListSpec.unique_list_ok|].
  split.
  { now apply RankSpec.unique_count_ok. }
  split; [exact Hr|]. rewrite Ha.
  split; [apply RankSpec.zip_count_fst|].
  assert (Hp : Permutation (fold_left (unique_step Aeq_dec) l [])
                           (nodup Aeq_dec l)).
  { apply NoDup_Permutation.
    - apply ListSpec.unique_fold_NoDup. constructor.
    - apply NoDup_nodup.
    - intros x. rewrite ListSpec.unique_fold_In, nodup_In. simpl. tauto. }
  split.
  - apply sorted_perm_unique.
    + now apply NumpyFacts.sort_StronglySorted.
    + now apply NumpyFacts.sort_StronglySorted.
    + apply Permutation_trans with (fold_left (unique_step Aeq_dec) l []).
      * apply NumpyFacts.sort_perm.
      * apply Permutation_trans with (nodup Aeq_dec l); [exact Hp|].
        apply Permutation_sym, NumpyFacts.sort_perm.
  - rewrite NumpyFacts.sort_length. now apply Permutation_length.
Qed.

End UniqueOverloads.

Lemma unique_ndarray_values_and_first_index_witness :
  exists r,
    unique_ndarray Z.eq_dec Z.leb [7; 0; 7; 3]%Z = Ok r
    /\ NoDup (distinct_values r)
    /\ (forall x, In x (distinct_values r) <-> In x [7; 0; 7; 3]%Z)
    /\ StronglySorted (Numpy.le Z.leb) (distinct_values r)
    /\ Forall2
         (fun x i => nth_error [7; 0; 7; 3]%Z i = Some x
                     /\ forall j, (j < i)%nat ->
                                  nth_error [7; 0; 7; 3]%Z j <> Some x)
         (distinct_values r) (flatten (first_index r)).
Proof.
  apply (@unique_ndarray_values_and_first_index Z Z.eq_dec Z.leb
           RankSpec.Zleb_total RankSpec.Zleb_trans [7; 0; 7; 3]%Z).
  discriminate.
Defined.

Lemma unique_overloads_agree_witness :
  exists u d r,
    unique_list Z.eq_dec [7; 0; 7; 3]%Z = Ok u
    /\ unique_count Z.eq_dec Z.leb [7; 0; 7; 3]%Z 4 = Ok d
    /\ unique_ndarray Z.eq_dec Z.leb [7; 0; 7; 3]%Z = Ok r
    /\ map fst d = distinct_values r
    /\ Numpy.sort Z.leb u = distinct_values r
    /\ length u = length (distinct_values r).
Proof.
  apply (@unique_overloads_agree Z Z.eq_dec Z.leb RankSpec.Zleb_total
           RankSpec.Zleb_trans RankSpec.Zleb_antisym [7; 0; 7; 3]%Z 4%Z).
  - discriminate.
  - lia.
Defined.

End UniqueMore.

(* ------------------------------------------------------------------ *)
(** * overlap1d, its generator, zero_or_one *)

Module OverlapMore.

Import Precision.
Local Open Scope py_scope.

Section Overlap1dMore.

Variable A : Type.
Variable Aeq_dec : forall x y : A, {x = y} + {x <> y}.

Lemma acceptedb_sym (a b : list A) : acceptedb a b = acceptedb b a.
Proof.
  unfold acceptedb. rewrite (Nat.eqb_sym (length a)).
  destruct (1 <=? length a)%nat, (1 <=? length b)%nat; reflexivity.
Qed.

(** The agreeing items of [enumerate(zip(a, b))], counted from [k]. *)
Lemma agreeing_items_sym (a : list A) :
  forall (b : list A) (k : nat),
    filter (agree Aeq_dec) (combine (seq k (length (combine a b))) (combine a b))
    = filter (agree Aeq_dec)
        (combine (seq k (length (combine b a))) (combine b a)).
Proof.
  induction a as [|x a IH]; intros b k.
  - destruct b; reflexivity.
  - destruct b as [|y b]; [reflexivity|].
    cbn [combine length seq filter].
    change (agree Aeq_dec (k, (x, y))) with (eqb Aeq_dec x y).
    change (agree Aeq_dec (k, (y, x))) with (eqb Aeq_dec y x).
    unfold eqb. destruct (Aeq_dec x y) as [->|Hne].
    + destruct (Aeq_dec y y) as [_|H]; [|congruence]. f_equal. apply IH.
    + destruct (Aeq_dec y x) as [->|_]; [congruence|]. apply IH.
Qed.

(** X9.  [overlap1d] does not depend on the order of its two arguments:
    [overlap1d(a, b)] and [overlap1d(b, a)] give the same list, or both
    raise. *)
Theorem overlap1d_symmetric (a b : list A) :
  overlap1d Aeq_dec a b = overlap1d Aeq_dec b a.
Proof.
  destruct (ListSpec.accepted_dec a b) as [H|H].
  - destruct H as (Ha & Hb & Hlen).
    rewrite !ListSpec.overlap1d_ok by (assumption || now symmetry).
    f_equal. apply agreeing_items_sym.
  - rewrite (ListSpec.overlap1d_refused Aeq_dec H).
    rewrite ListSpec.overlap1d_refused; [reflexivity|].
    intros (Hb & Ha & Hlen). apply H. repeat split; auto.
Qed.

Lemma filter_length_le (B : Type) (f : B -> bool) (l : list B) :
  (length (filter f l) <= length l)%nat.
Proof. induction l as [|x l IH]; simpl; [lia|]. destruct (f x); simpl; lia. Qed.

Lemma agreeing_items_all (a : list A) :
  forall (b : list A) (k : nat),
    length a = length b ->
    (length (filter (agree Aeq_dec)
               (combine (seq k (length (combine a b))) (combine a b)))
     = length a
     <-> a = b).
Proof.
  induction a as [|x a IH]; intros b k Hlen.
  - destruct b; [|discriminate]. simpl. tauto.
  - destruct b as [|y b]; [discriminate|].
    simpl in Hlen. injection Hlen as Hlen.
    cbn [combine length seq filter].
    change (agree Aeq_dec (k, (x, y))) with (eqb Aeq_dec x y).
    unfold eqb. destruct (Aeq_dec x y) as [->|Hne].
    + cbn [length]. rewrite Nat.succ_inj_wd, (IH b (S k) Hlen).
      split; [intros ->; reflexivity|]. intros E. now injection E.
    + split; [|intros E; injection E; congruence].
      intros E.
      pose proof (filter_length_le (agree Aeq_dec)
                    (combine (seq (S k) (length (combine a b))) (combine a b)))
        as Hle.
      repeat rewrite ?length_combine, ?length_seq in *. lia.
Qed.

(** X10.  For two non-empty lists of one length, [overlap1d] reports at
    most as many positions as the lists have, and reports all of them
    exactly when the two lists are equal. *)
Theorem overlap1d_counts_agreement (a b : list A) :
  a <> [] ->
  length a = length b ->
  exists r,
    overlap1d Aeq_dec a b = Ok r
    /\ (length r <= length a)%nat
    /\ (length r = length a <-> a = b).
Proof.
  intros Ha Hlen. eexists. split; [now apply ListSpec.overlap1d_ok|].
  unfold enumerate. split.
  - etransitivity; [apply filter_length_le|].
    repeat rewrite ?length_combine, ?length_seq. lia.
  - now apply agreeing_items_all.
Qed.

Lemma matches_In (v1 : list A) (x : A) (p : nat) :
  In p (matches Aeq_dec v1 x) <-> nth_error v1 p = Some x.
Proof.
  unfold matches. rewrite in_map_iff. split.
  - intros ([p' y] & Hp & Hin). simpl in Hp. subst p'.
    apply filter_In in Hin. destruct Hin as [Hin Hy]. simpl in Hy.
    apply ListSpec.eqb_true in Hy. subst y.
    now apply ListSpec.In_enumerate.
  - intros H. exists (p, x). split; [reflexivity|].
    apply filter_In. split; [now apply ListSpec.In_enumerate|].
    simpl. now apply ListSpec.eqb_true.
Qed.

(** X11.  For two non-empty lists of one length, consuming the generator of
    [overlap1d(v0, v1, n)] gives one list per cell of [v0]; the list for
    cell [i] holds exactly the positions of [v1] whose value equals
    [v0[i]], whatever [n] is; and [overlap1d(v0, v1)] reports position [i]
    exactly when that list holds [i] itself. *)
Theorem overlap1d_n_cross_reference (v0 v1 : list A) (n : Z) :
  v0 <> [] ->
  length v0 = length v1 ->
  exists res r,
    overlap1d_n_list Aeq_dec v0 v1 n = Some (Ok res)
    /\ overlap1d Aeq_dec v0 v1 = Ok r
    /\ length res = length v0
    /\ (forall i x ps,
          nth_error v0 i = Some x -> nth_error res i = Some ps ->
          forall p, In p ps <-> nth_error v1 p = Some x)
    /\ (forall i,
          In i (map fst r)
          <-> exists ps, nth_error res i = Some ps /\ In i ps).
Proof.
  intros H0 Hlen.
  assert (Hacc : accepted v0 v1).
  { repeat split; auto. intros ->. destruct v0; [congruence|discriminate]. }
  exists (map (matches Aeq_dec v1) v0),
         (filter (agree Aeq_dec) (enumerate (combine v0 v1))).
  split; [now apply ListSpec.overlap1d_n_list_ok|].
  split; [now apply ListSpec.overlap1d_ok|].
  split; [apply length_map|]. split.
  - intros i x ps Hx Hps p. rewrite nth_error_map, Hx in Hps.
    injection Hps as <-. apply matches_In.
  - intros i. rewrite in_map_iff. split.
    + intros ([i' [x y]] & Hi & Hin). simpl in Hi. subst i'.
      apply filter_In in Hin. destruct Hin as [Hin Hxy].
      apply ListSpec.In_enumerate, ListSpec.nth_error_combine in Hin.
      destruct Hin as [Hx Hy]. unfold agree in Hxy. simpl in Hxy.
      apply ListSpec.eqb_true in Hxy. subst y.
      exists (matches Aeq_dec v1 x). split.
      * now rewrite nth_error_map, Hx.
      * now apply matches_In.
    + intros (ps & Hps & Hin). rewrite nth_error_map in Hps.
      destruct (nth_error v0 i) as [x|] eqn:Hx; [|discriminate].
      injection Hps as <-. apply matches_In in Hin.
      exists (i, (x, x)). split; [reflexivity|].
      apply filter_In. split.
      * now apply ListSpec.In_enumerate, ListSpec.nth_error_combine.
      * unfold agree. simpl. now apply ListSpec.eqb_true.
Qed.

(** [zero_or_one] maps every cell to its answer. *)
Lemma zero_or_one_fold (l0 : list A) (s : A) :
  forall r0,
    fold_left (fun r0 i => r0 ++ [if eqb Aeq_dec i s then 1%Z else 0%Z]) l0 r0
    = r0 ++ map (fun i => if Aeq_dec i s then 1%Z else 0%Z) l0.
Proof.
  induction l0 as [|x l0 IH]; intros r0; simpl.
  - now rewrite app_nil_r.
  - rewrite IH, <- app_assoc. unfold eqb. simpl.
    destruct (Aeq_dec x s); reflexivity.
Qed.

(** X12.  [zero_or_one(l0, s)] never raises and returns a list as long as
    [l0] that holds 1 at the positions where [l0] holds [s] and 0
    elsewhere; its sum is the number of occurrences of [s] in [l0]. *)
Theorem zero_or_one_marks (l0 : list A) (s : A) :
  exists r,
    zero_or_one Aeq_dec l0 s = Ok r
    /\ length r = length l0
    /\ (forall i x, nth_error l0 i = Some x ->
          (x = s -> nth_error r i = Some 1%Z)
          /\ (x <> s -> nth_error r i = Some 0%Z))
    /\ fold_right Z.add 0%Z r = Z.of_nat (count_occ Aeq_dec l0 s).
Proof.
  exists (map (fun i => if Aeq_dec i s then 1%Z else 0%Z) l0).
  split; [unfold zero_or_one; now rewrite zero_or_one_fold|].
  split; [apply length_map|]. split.
  - intros i x Hx. rewrite nth_error_map, Hx. simpl.
    destruct (Aeq_dec x s); split; intros; congruence.
  - induction l0 as [|x l0 IH]; simpl; [reflexivity|].
    rewrite IH. destruct (Aeq_dec x s) as [->|Hne]; lia.
Qed.

End Overlap1dMore.

Lemma overlap1d_counts_agreement_witness :
  exists r,
    overlap1d string_dec ["A"; "B"; "A"]%string ["A"; "D"; "A"]%string = Ok r
    /\ (length r <= length ["A"; "B"; "A"]%string)%nat
    /\ (length r = length ["A"; "B"; "A"]%string
        <-> ["A"; "B"; "A"]%string = ["A"; "D"; "A"]%string).
Proof.
  apply (@overlap1d_counts_agreement _ string_dec
           ["A"; "B"; "A"]%string ["A"; "D"; "A"]%string).
  - discriminate.
  - reflexivity.
Defined.

Lemma overlap1d_n_cross_reference_witness :
  exists res r,
    overlap1d_n_list string_dec ["A"; "B"; "A"]%string ["A"; "D"; "A"]%string 0
    = Some (Ok res)
    /\ overlap1d string_dec ["A"; "B"; "A"]%string ["A"; "D"; "A"]%string = Ok r
    /\ length res = length ["A"; "B"; "A"]%string
    /\ (forall i x ps,
          nth_error ["A"; "B"; "A"]%string i = Some x ->
          nth_error res i = Some ps ->
          forall p, In p ps <-> nth_error ["A"; "D"; "A"]%string p = Some x)
    /\ (forall i,
          In i (map fst r)
          <-> exists ps, nth_error res i = Some ps /\ In i ps).
Proof.
  apply (@overlap1d_n_cross_reference _ string_dec
           ["A"; "B"; "A"]%string ["A"; "D"; "A"]%string 0%Z).
  - discriminate.
  - reflexivity.
Defined.

End OverlapMore.

(* ------------------------------------------------------------------ *)
(** * overlap2d: order of the index sequences *)

Module Overlap2dMore.

Import Precision.
Local Open Scope py_scope.

Section Selection.

Variable B : Type.

Lemma nth_error_middle (P M : list B) (x : B) :
  nth_error (P ++ x :: M) (length P) = Some x.
Proof. induction P as [|y P IH]; simpl; auto. Qed.

(** Indexing with the positions of the true cells of a mask keeps the cells
    under the true ones. *)
Lemma take_nonzero_from (f : B -> bool) (M : list B) :
  forall P : list B,
    Numpy.take (P ++ M)
      (map fst (filter snd (combine (seq (length P) (length (map f M)))
                                    (map f M))))
    = filter f M.
Proof.
  induction M as [|x M IH]; intros P; simpl; [reflexivity|].
  specialize (IH (P ++ [x])).
  rewrite <- app_assoc, length_app, Nat.add_1_r in IH. simpl in IH.
  destruct (f x); simpl.
  - rewrite nth_error_middle. simpl. f_equal. exact IH.
  - exact IH.
Qed.

Lemma take_nonzero (f : B -> bool) (M : list B) :
  Numpy.take M (Numpy.nonzero (map f M)) = filter f M.
Proof. apply (take_nonzero_from f M []). Qed.

Lemma take_map (C : Type) (g : B -> C) (M : list B) (idx : list nat) :
  Numpy.take (map g M) idx = map g (Numpy.take M idx).
Proof.
  unfold Numpy.take. induction idx as [|i idx IH]; simpl; [reflexivity|].
  rewrite map_app, IH, nth_error_map. destruct (nth_error M i); reflexivity.
Qed.

Lemma StronglySorted_filter (R : B -> B -> Prop) (f : B -> bool) (M : list B) :
  StronglySorted R M -> StronglySorted R (filter f M).
Proof.
  induction 1 as [|x M HM IH Hx]; simpl; [constructor|].
  destruct (f x); [|exact IH]. constructor; [exact IH|].
  rewrite Forall_forall in *. intros y Hy. apply filter_In in Hy.
  apply Hx, Hy.
Qed.

End Selection.

Section Order.

Variable A : Type.
Variable leb : A -> A -> bool.

Hypothesis leb_total : forall x y, leb x y = true \/ leb y x = true.
Hypothesis leb_trans :
  forall x y z, Numpy.le leb x y -> Numpy.le leb y z -> Numpy.le leb x z.

(** The indices that [overlap2d] selects in [a]: the positions of the sorted
    pairs of [a] whose value passes the range test. *)
Lemma overlap2d_selected (a : list A) (left right : A -> nat) :
  let a1 := Numpy.argsort leb a in
  let sa := Numpy.take a a1 in
  Numpy.take a1
    (Numpy.nonzero (Numpy.range_nonempty (map right sa) (map left sa)))
  = map fst
      (filter (fun p => (left (snd p) <? right (snd p))%nat)
              (Numpy.sort (Numpy.by_value leb) (enumerate a))).
Proof.
  intros a1 sa. subst sa a1. rewrite ArraySpec.take_argsort.
  rewrite ArraySpec.range_nonempty_map, map_map.
  unfold Numpy.argsort. rewrite take_map. f_equal.
  apply (take_nonzero (fun p => (left (snd p) <? right (snd p))%nat)).
Qed.

Lemma selected_ordered (a : list A) (f : nat * A -> bool) :
  let ia := map fst (filter f (Numpy.sort (Numpy.by_value leb) (enumerate a))) in
  NoDup ia
  /\ exists va,
       map (nth_error a) ia = map Some va
       /\ StronglySorted (Numpy.le leb) va.
Proof.
  intros ia. subst ia.
  set (L := Numpy.sort (Numpy.by_value leb) (enumerate a)).
  split.
  - apply ListSpec.NoDup_map_fst_filter.
    apply (Permutation_NoDup (l := map fst (enumerate a))).
    + apply Permutation_map, Permutation_sym, NumpyFacts.sort_perm.
    + rewrite ListSpec.enumerate_fst. apply seq_NoDup.
  - exists (map snd (filter f L)). split.
    + rewrite !map_map. apply map_ext_in. intros [i e] Hin. simpl.
      apply filter_In in Hin. destruct Hin as [Hin _].
      exact (proj1 (ArraySpec.argsort_cells leb a i e) Hin).
    + apply ArraySpec.StronglySorted_map_snd, StronglySorted_filter.
      apply NumpyFacts.sort_StronglySorted.
      * intros p q. apply leb_total.
      * intros p q r. apply leb_trans.
Qed.

(** X13.  Each index sequence that [overlap2d] returns holds no index
    twice and lists its indices in the ascending order of the values they
    point at. *)
Theorem overlap2d_sort_order (a b : list A) (ia ib : list nat) :
  overlap2d leb a b = Ok (ia, ib) ->
  (NoDup ia
   /\ exists va, map (nth_error a) ia = map Some va
                 /\ StronglySorted (Numpy.le leb) va)
  /\ (NoDup ib
      /\ exists vb, map (nth_error b) ib = map Some vb
                    /\ StronglySorted (Numpy.le leb) vb).
Proof.
  unfold overlap2d. intros H. injection H as <- <-.
  rewrite !overlap2d_selected. split; apply selected_ordered.
Qed.

End Order.

Lemma overlap2d_sort_order_witness :
  (NoDup [0; 2]%nat
   /\ exists va, map (nth_error [1; 2; 4; 5]%Z) [0; 2]%nat = map Some va
                 /\ StronglySorted (Numpy.le Z.leb) va)
  /\ (NoDup [4; 0]%nat
      /\ exists vb, map (nth_error [4; 6; 10; 9; 1]%Z) [4; 0]%nat = map Some vb
                    /\ StronglySorted (Numpy.le Z.leb) vb).
Proof.
  apply (@overlap2d_sort_order Z Z.leb RankSpec.Zleb_total RankSpec.Zleb_trans
           [1; 2; 4; 5]%Z [4; 6; 10; 9; 1]%Z).
  reflexivity.
Defined.

Lemma overlap2d_intersection_witness :
  (forall i, In i [0; 2]%nat
             <-> exists x, nth_error [1; 2; 4; 5]%Z i = Some x
                           /\ In x [4; 6; 10; 9; 1]%Z)
  /\ (forall j, In j [4; 0]%nat
                <-> exists y, nth_error [4; 6; 10; 9; 1]%Z j = Some y
                              /\ In y [1; 2; 4; 5]%Z).
Proof.
  apply (@ArraySpec.overlap2d_intersection Z Z.leb RankSpec.Zleb_total
           RankSpec.Zleb_trans RankSpec.Zleb_antisym
           [1; 2; 4; 5]%Z [4; 6; 10; 9; 1]%Z).
  reflexivity.
Defined.

End Overlap2dMore.

(* ------------------------------------------------------------------ *)
(** * quantile: the order of the samples *)

Module QuantileOrder.

Import Numpy InterpFacts Precision QuantileSpec.
Local Open Scope Q_scope.
Local Open Scope py_scope.

Lemma same_numbers_refl (l : list Q) : same_numbers l l.
Proof. induction l; constructor; auto. reflexivity. Qed.

Lemma same_numbers_trans (l1 l2 l3 : list Q) :
  same_numbers l1 l2 -> same_numbers l2 l3 -> same_numbers l1 l3.
Proof.
  intros H. revert l3. induction H as [|x y l1 l2 Hxy H IH]; intros l3 H3.
  - exact H3.
  - inversion H3 as [|? z ? l3' Hyz H3']; subst. constructor.
    + now rewrite Hxy.
    + now apply IH.
Qed.

Lemma insert_same_numbers (x : Q) (l l' : list Q) :
  same_numbers l l' -> same_numbers (insert Qle_bool x l) (insert Qle_bool x l').
Proof.
  induction 1 as [|y y' l l' Hy H IH]; simpl.
  - apply same_numbers_refl.
  - rewrite Hy. destruct (Qle_bool x y').
    + constructor; [reflexivity|]. now constructor.
    + now constructor.
Qed.

Lemma Qle_bool_false (x y : Q) : Qle_bool x y = false -> y < x.
Proof.
  intros H. apply Qnot_le_lt. intros Hle. apply Qle_bool_iff in Hle. congruence.
Qed.

(** Two insertions commute, up to the order of equal numbers. *)
Lemma insert_insert (x y : Q) (l : list Q) :
  same_numbers (insert Qle_bool x (insert Qle_bool y l))
               (insert Qle_bool y (insert Qle_bool x l)).
Proof.
  induction l as [|z l IH]; simpl.
  - destruct (Qle_bool x y) eqn:Exy, (Qle_bool y x) eqn:Eyx.
    + apply Qle_bool_iff in Exy. apply Qle_bool_iff in Eyx.
      assert (E : x == y) by lra.
      constructor; [exact E|]. constructor; [now symmetry|constructor].
    + apply same_numbers_refl.
    + apply same_numbers_refl.
    + apply Qle_bool_false in Exy. apply Qle_bool_false in Eyx. lra.
  - destruct (Qle_bool y z) eqn:Eyz, (Qle_bool x z) eqn:Exz; simpl.
    + destruct (Qle_bool x y) eqn:Exy, (Qle_bool y x) eqn:Eyx.
      * apply Qle_bool_iff in Exy. apply Qle_bool_iff in Eyx.
        assert (E : x == y) by lra.
        constructor; [exact E|]. constructor; [now symmetry|].
        apply same_numbers_refl.
      * rewrite Eyz. apply same_numbers_refl.
      * rewrite Exz. apply same_numbers_refl.
      * apply Qle_bool_false in Exy. apply Qle_bool_false in Eyx. lra.
    + assert (Exy : Qle_bool x y = false).
      { destruct (Qle_bool x y) eqn:E; [|reflexivity].
        apply Qle_bool_iff in E. apply Qle_bool_iff in Eyz.
        apply Qle_bool_false in Exz. lra. }
      rewrite Exy, Exz, Eyz. apply same_numbers_refl.
    + assert (Eyx : Qle_bool y x = false).
      { destruct (Qle_bool y x) eqn:E; [|reflexivity].
        apply Qle_bool_iff in E. apply Qle_bool_iff in Exz.
        apply Qle_bool_false in Eyz. lra. }
      rewrite Exz, Eyx, Eyz. apply same_numbers_refl.
    + rewrite Exz, Eyz. constructor; [reflexivity|exact IH].
Qed.

(** Sorting two arrangements of the same numbers gives the same numbers
    cell by cell. *)
Lemma sort_permutation (l l' : list Q) :
  Permutation l l' ->
  same_numbers (sort Qle_bool l) (sort Qle_bool l').
Proof.
  induction 1 as [|x l l' H IH|x y l|l1 l2 l3 H1 IH1 H2 IH2]; simpl.
  - constructor.
  - now apply insert_same_numbers.
  - apply insert_insert.
  - eapply same_numbers_trans; eauto.
Qed.

(** [interp] computes equal values from equal sample values. *)
Lemma interp_from_same_numbers (xp : list Q) :
  forall (fp fp' : list Q) (x x0 y0 y0' : Q),
    y0 == y0' -> same_numbers fp fp' ->
    interp_from x x0 y0 xp fp == interp_from x x0 y0' xp fp'.
Proof.
  induction xp as [|x1 xp IH]; intros fp fp' x x0 y0 y0' Hy H.
  - destruct fp, fp'; exact Hy.
  - destruct H as [|y1 y1' fp fp' Hy1 H]; [exact Hy|].
    cbn [interp_from]. destruct (Qltb x x1).
    + destruct (Qeq_bool x0 x); [exact Hy|]. now rewrite Hy, Hy1.
    + now apply IH.
Qed.

Lemma interp_same_numbers (xp fp fp' : list Q) (x : Q) :
  length xp = length fp -> xp <> [] ->
  same_numbers fp fp' ->
  exists r r', interp x xp fp = Ok r /\ interp x xp fp' = Ok r' /\ r == r'.
Proof.
  intros Hlen Hne H.
  assert (Hlen' : length xp = length fp').
  { rewrite Hlen. clear Hlen. induction H; simpl; auto. }
  unfold interp. rewrite <- Hlen', <- Hlen, Nat.eqb_refl. simpl.
  destruct xp as [|x0 xp]; [congruence|].
  destruct H as [|y0 y0' fp fp' Hy H]; [discriminate|].
  eexists. eexists. split; [reflexivity|]. split; [reflexivity|].
  destruct (Qltb x x0); [exact Hy|].
  now apply interp_from_same_numbers.
Qed.

(** X15.  In exact arithmetic the order of the samples does not matter:
    for a non-empty list of numbers [v], any rearrangement [v'] of it and a
    request [q >= 0], [quantile(v, q)] and [quantile(v', q)] are equal. *)
Theorem quantile_permutation (v v' : list Q) (q : Q) :
  v <> [] ->
  0 <= q ->
  Permutation v v' ->
  exists r r',
    quantile (NumList v) q = Ok r
    /\ quantile (NumList v') q = Ok r'
    /\ r == r'.
Proof.
  intros Hv Hq Hp.
  assert (Hv' : v' <> []).
  { intros ->. apply Permutation_sym, Permutation_nil in Hp. congruence. }
  destruct (QuantileMore.quantile_interp_ready Hv) as [Hlen Hne].
  destruct (@interp_same_numbers (positions (length v)) (sort Qle_bool v)
              (sort Qle_bool v') q Hlen Hne (sort_permutation Hp))
    as (r & r' & Hr & Hr' & E).
  exists r, r'. rewrite !quantile_num by assumption.
  rewrite <- (Permutation_length Hp), Hr, Hr'. auto.
Qed.

Lemma quantile_permutation_witness :
  exists r r',
    quantile (NumList [3; 1; 2]) (1 # 3) = Ok r
    /\ quantile (NumList [2; 3; 1]) (1 # 3) = Ok r'
    /\ r == r'.
Proof.
  apply (@quantile_permutation [3; 1; 2] [2; 3; 1] (1 # 3)).
  - discriminate.
  - unfold Qle; simpl; lia.
  - apply Permutation_sym, (Permutation_cons_append [3; 1] 2).
Defined.

End QuantileOrder.

(* ------------------------------------------------------------------ *)
(** * datenum *)

Module DatenumSpec.

Import Datetime PrecisionDates.
Local Open Scope Z_scope.
Local Open Scope py_scope.

Lemma valid_date_spec (y m d : Z) :
  valid_date y m d = true
  <-> 1 <= y <= 9999 /\ 1 <= m <= 12 /\ 1 <= d <= days_in_month y m.
Proof.
  unfold valid_date. rewrite !andb_true_iff, !Z.leb_le. tauto.
Qed.

Lemma month_cases (m : Z) :
  1 <= m <= 12 ->
  m = 1 \/ m = 2 \/ m = 3 \/ m = 4 \/ m = 5 \/ m = 6
  \/ m = 7 \/ m = 8 \/ m = 9 \/ m = 10 \/ m = 11 \/ m = 12.
Proof. lia. Qed.

Lemma days_before_year_nonneg (y : Z) : 1 <= y -> 0 <= days_before_year y.
Proof.
  intros H. unfold days_before_year.
  Z.to_euclidean_division_equations. lia.
Qed.

(** A year is 365 days long, 366 when it is a leap year. *)
Lemma days_before_year_succ (y : Z) :
  days_before_year (y + 1)
  = days_before_year y + (if is_leap y then 366 else 365).
Proof.
  unfold days_before_year, is_leap.
  replace (y + 1 - 1) with y by lia.
  destruct (y mod 4 =? 0) eqn:E4, (y mod 100 =? 0) eqn:E100,
    (y mod 400 =? 0) eqn:E400; simpl;
    rewrite ?Z.eqb_eq, ?Z.eqb_neq in *;
    Z.to_euclidean_division_equations; lia.
Qed.

Lemma days_before_year_mono (y y' : Z) :
  y <= y' -> days_before_year y <= days_before_year y'.
Proof.
  intros H. unfold days_before_year.
  Z.to_euclidean_division_equations. lia.
Qed.

Lemma days_before_month_bounds (y m : Z) :
  1 <= m <= 12 ->
  0 <= days_before_month y m
  /\ days_before_month y m + days_in_month y m
     <= (if is_leap y then 366 else 365).
Proof.
  intros H. unfold days_before_month, days_in_month.
  destruct (month_cases H) as [->|[->|[->|[->|[->|[->|[->|[->|[->|[->|[->| ->]]]]]]]]]]];
    simpl; destruct (is_leap y); simpl; lia.
Qed.

(** The months of a year follow one another without a gap. *)
Lemma days_before_month_succ (y m : Z) :
  1 <= m <= 11 ->
  days_before_month y (m + 1) = days_before_month y m + days_in_month y m.
Proof.
  intros H. unfold days_before_month, days_in_month.
  assert (Hm : 1 <= m <= 12) by lia.
  destruct (month_cases Hm) as [->|[->|[->|[->|[->|[->|[->|[->|[->|[->|[->| ->]]]]]]]]]]];
    simpl; destruct (is_leap y); simpl; lia.
Qed.

Lemma days_before_month_mono (y m m' : Z) :
  1 <= m -> m < m' -> m' <= 12 ->
  days_before_month y m + days_in_month y m <= days_before_month y m'.
Proof.
  intros H1 H2 H3. unfold days_before_month, days_in_month.
  assert (Hm : 1 <= m <= 12) by lia.
  assert (Hm' : 1 <= m' <= 12) by lia.
  destruct (month_cases Hm) as [->|[->|[->|[->|[->|[->|[->|[->|[->|[->|[->| ->]]]]]]]]]]];
    destruct (month_cases Hm') as [->|[->|[->|[->|[->|[->|[->|[->|[->|[->|[->| ->]]]]]]]]]]];
    try lia; simpl; destruct (is_leap y); simpl; lia.
Qed.

Lemma datenum_valid (y m d : Z) :
  valid_date y m d = true ->
  datenum y m d = Ok (toordinal (mk_date y m d) + 366).
Proof.
  intros H. unfold datenum, datenum_date, date_new. rewrite H. simpl.
  rewrite H. reflexivity.
Qed.

Lemma toordinal_pos (y m d : Z) :
  valid_date y m d = true -> 1 <= toordinal (mk_date y m d).
Proof.
  intros H. apply valid_date_spec in H. destruct H as (Hy & Hm & Hd).
  unfold toordinal. simpl.
  pose proof (days_before_year_nonneg (y := y)).
  pose proof (days_before_month_bounds y Hm). lia.
Qed.

(** X19.  [datenum(y, m, d)] never raises.  For a date of the calendar it
    returns the ordinal of the date plus 366, which is at least 367, and the
    overloads on a [date] and on a [Timestamp] of that day return the same
    number; for anything else (a month 13, a February 30) it returns 0. *)
Theorem datenum_serial_or_zero (y m d ns : Z) :
  (valid_date y m d = true ->
   exists n,
     datenum y m d = Ok n
     /\ datenum_date (mk_date y m d) = Ok n
     /\ datenum_timestamp (mk_timestamp (mk_date y m d) ns) = Ok n
     /\ n = toordinal (mk_date y m d) + 366
     /\ 367 <= n)
  /\ (valid_date y m d = false -> datenum y m d = Ok 0).
Proof.
  split.
  - intros H. exists (toordinal (mk_date y m d) + 366).
    split; [now apply datenum_valid|].
    split; [unfold datenum_date, date_new; simpl; now rewrite H|].
    split.
    { unfold datenum_timestamp, datenum_date, date_new. simpl. rewrite H.
      simpl. now rewrite H. }
    split; [reflexivity|]. pose proof (toordinal_pos y m d H). lia.
  - intros H. unfold datenum, date_new. now rewrite H.
Qed.

Lemma datenum_serial_or_zero_witness :
  (exists n,
     datenum 2018 6 12 = Ok n
     /\ datenum_date (mk_date 2018 6 12) = Ok n
     /\ datenum_timestamp (mk_timestamp (mk_date 2018 6 12) 0) = Ok n
     /\ n = toordinal (mk_date 2018 6 12) + 366
     /\ 367 <= n)
  /\ datenum 2019 2 29 = Ok 0.
Proof.
  split.
  - apply (proj1 (datenum_serial_or_zero 2018 6 12 0)). reflexivity.
  - apply (proj2 (datenum_serial_or_zero 2019 2 29 0)). reflexivity.
Defined.

(** The order of the calendar. *)
Lemma toordinal_lt (y m d y' m' d' : Z) :
  valid_date y m d = true -> valid_date y' m' d' = true ->
  (y < y' \/ (y = y' /\ (m < m' \/ (m = m' /\ d < d')))) ->
  toordinal (mk_date y m d) < toordinal (mk_date y' m' d').
Proof.
  intros H H' Hlt.
  apply valid_date_spec in H. destruct H as (Hy & Hm & Hd).
  apply valid_date_spec in H'. destruct H' as (Hy' & Hm' & Hd').
  unfold toordinal. simpl.
  pose proof (days_before_month_bounds y Hm) as [B1 B2].
  pose proof (days_before_month_bounds y' Hm') as [B1' B2'].
  destruct Hlt as [Hlt|[-> [Hlt|[-> Hlt]]]].
  - pose proof (days_before_year_succ y) as Hs.
    pose proof (@days_before_year_mono (y + 1) y') as Hmono.
    destruct (is_leap y); lia.
  - pose proof (@days_before_month_mono y' m m'). lia.
  - lia.
Qed.

(** X20.  On dates of the calendar [datenum] follows the order of the
    calendar: an earlier date has a smaller number, and so different dates
    have different numbers. *)
Theorem datenum_monotone (y m d y' m' d' : Z) :
  valid_date y m d = true ->
  valid_date y' m' d' = true ->
  exists n n',
    datenum y m d = Ok n
    /\ datenum y' m' d' = Ok n'
    /\ (n < n' <-> y < y' \/ (y = y' /\ (m < m' \/ (m = m' /\ d < d'))))
    /\ (n = n' <-> y = y' /\ m = m' /\ d = d').
Proof.
  intros H H'. eexists. eexists.
  split; [now apply datenum_valid|]. split; [now apply datenum_valid|].
  pose proof (@toordinal_lt y m d y' m' d' H H') as L1.
  pose proof (@toordinal_lt y' m' d' y m d H' H) as L2.
  assert (Hcases :
            (y < y' \/ (y = y' /\ (m < m' \/ (m = m' /\ d < d'))))
            \/ (y' < y \/ (y' = y /\ (m' < m \/ (m' = m /\ d' < d))))
            \/ (y = y' /\ m = m' /\ d = d')) by lia.
  destruct Hcases as [Hc|[Hc|(-> & -> & ->)]].
  - specialize (L1 Hc). repeat split; intros; first [assumption | lia].
  - specialize (L2 Hc). repeat split; intros; first [assumption | lia].
  - repeat split; intros; first [assumption | lia].
Qed.

Lemma datenum_monotone_witness :
  exists n n',
    datenum 2020 2 29 = Ok n
    /\ datenum 2020 3 1 = Ok n'
    /\ (n < n' <-> 2020 < 2020
                   \/ (2020 = 2020 /\ (2 < 3 \/ (2 = 3 /\ 29 < 1))))
    /\ (n = n' <-> 2020 = 2020 /\ 2 = 3 /\ 29 = 1).
Proof.
  apply (@datenum_monotone 2020 2 29 2020 3 1); reflexivity.
Defined.

(** X21.  The numbers of consecutive days differ by one, across the end
    of a month and the end of a year as within a month. *)
Theorem datenum_next_day (y m d : Z) :
  valid_date y m d = true ->
  exists n,
    datenum y m d = Ok n
    /\ (d < days_in_month y m -> datenum y m (d + 1) = Ok (n + 1))
    /\ (d = days_in_month y m -> m < 12 -> datenum y (m + 1) 1 = Ok (n + 1))
    /\ (d = days_in_month y m -> m = 12 -> y < 9999 ->
        datenum (y + 1) 1 1 = Ok (n + 1)).
Proof.
  intros H. eexists. split; [now apply datenum_valid|].
  pose proof H as Hv. apply valid_date_spec in Hv.
  destruct Hv as (Hy & Hm & Hd).
  split; [|split].
  - intros Hlt. rewrite datenum_valid.
    + unfold toordinal. simpl. f_equal. lia.
    + apply valid_date_spec. lia.
  - intros -> Hlt. rewrite datenum_valid.
    + unfold toordinal. simpl. f_equal.
      rewrite days_before_month_succ by lia. lia.
    + apply valid_date_spec. split; [lia|]. split; [lia|].
      assert (Hm1 : 1 <= m + 1 <= 12) by lia.
      unfold days_in_month.
      destruct (month_cases Hm1) as [->|[->|[->|[->|[->|[->|[->|[->|[->|[->|[->| ->]]]]]]]]]]];
        simpl; try lia; destruct (is_leap y); lia.
  - intros -> -> Hlt. rewrite datenum_valid.
    + unfold toordinal. simpl.
      rewrite days_before_year_succ. unfold days_before_month. simpl.
      f_equal. destruct (is_leap y); lia.
    + apply valid_date_spec. simpl. lia.
Qed.

Lemma datenum_next_day_witness :
  exists n,
    datenum 2019 12 31 = Ok n
    /\ (31 < days_in_month 2019 12 -> datenum 2019 12 (31 + 1) = Ok (n + 1))
    /\ (31 = days_in_month 2019 12 -> 12 < 12 ->
        datenum 2019 (12 + 1) 1 = Ok (n + 1))
    /\ (31 = days_in_month 2019 12 -> 12 = 12 -> 2019 < 9999 ->
        datenum (2019 + 1) 1 1 = Ok (n + 1)).
Proof. apply (@datenum_next_day 2019 12 31). reflexivity. Defined.

End DatenumSpec.

(* ------------------------------------------------------------------ *)
(** * dtrange *)

Module DtrangeSpec.

Import Datetime PrecisionDates.
Local Open Scope Z_scope.
Local Open Scope py_scope.

Lemma datetime_in_range_spec (t : Z) :
  datetime_in_range t = true <-> 0 <= t < 3652059 * us_per_day.
Proof.
  unfold datetime_in_range. rewrite andb_true_iff, Z.leb_le, Z.ltb_lt. tauto.
Qed.

(** After [current] was produced with a positive step: the generator goes
    on producing [current + delta], [current + 2 delta], ... as long as the
    value is before [stop], [n] values in all. *)
Lemma drain_forward (stop delta : Z) (n : nat) :
  0 < delta ->
  datetime_in_range stop = true ->
  forall current fuel,
    0 <= current < stop ->
    Z.of_nat n = (stop - current - 1) / delta ->
    (n < fuel)%nat ->
    drain dtrange_next fuel (DtSuspended current stop delta)
    = Some (Ok (map (fun k => current + (Z.of_nat k + 1) * delta) (seq 0 n))).
Proof.
  intros Hd Hstop. apply datetime_in_range_spec in Hstop.
  induction n as [|n IH]; intros current fuel Hc Hn Hf.
  - destruct fuel as [|fuel]; [lia|]. cbn [drain dtrange_next].
    assert (Hge : stop <= current + delta).
    { symmetry in Hn. apply Z.div_small_iff in Hn; lia. }
    unfold datetime_add. destruct (datetime_in_range (current + delta)).
    + unfold dtrange_test.
      replace (current + delta <? stop) with false
        by (symmetry; apply Z.ltb_ge; lia).
      reflexivity.
    + reflexivity.
  - destruct fuel as [|fuel]; [lia|]. cbn [drain dtrange_next].
    assert (Hlt : current + delta < stop).
    { assert (1 <= (stop - current - 1) / delta) by lia.
      Z.to_euclidean_division_equations. nia. }
    unfold datetime_add.
    replace (datetime_in_range (current + delta)) with true
      by (symmetry; apply datetime_in_range_spec; lia).
    unfold dtrange_test.
    replace (current + delta <? stop) with true
      by (symmetry; apply Z.ltb_lt; lia).
    rewrite (IH (current + delta) fuel).
    + cbn [seq map]. f_equal. f_equal. f_equal; [lia|].
      rewrite <- seq_shift, map_map. apply map_ext. intros k. lia.
    + lia.
    + replace (stop - (current + delta) - 1)
        with ((stop - current - 1) + (-1) * delta) by lia.
      rewrite Z.div_add by lia. lia.
    + lia.
Qed.

(** X22.  With a positive step, and [start] and [stop] datetimes,
    consuming [dtrange(start, stop, delta)] ends and gives [start],
    [start + delta], [start + 2 delta], ... up to the last value before
    [stop]: none when [stop <= start], otherwise as many as [delta] fits
    into [stop - start], rounded up. *)
Theorem dtrange_forward (start stop : Z) (delta : delta_arg) (us : Z) :
  datetime_in_range start = true ->
  datetime_in_range stop = true ->
  delta_value delta = Ok us ->
  0 < us ->
  let n := Z.to_nat ((stop - start + us - 1) / us) in
  forall fuel,
    (n < fuel)%nat ->
    drain dtrange_next fuel (dtrange start stop delta)
    = Some (Ok (map (fun k => start + Z.of_nat k * us) (seq 0 n))).
Proof.
  intros Hs He Hdelta Hus n fuel Hf. unfold dtrange.
  destruct fuel as [|fuel]; [lia|]. cbn [drain dtrange_next].
  rewrite Hdelta. unfold dtrange_test.
  pose proof (proj1 (datetime_in_range_spec start) Hs) as Hs'.
  destruct (start <? stop) eqn:E.
  - apply Z.ltb_lt in E.
    assert (Hn : (stop - start + us - 1) / us = (stop - start - 1) / us + 1).
    { replace (stop - start + us - 1) with ((stop - start - 1) + 1 * us) by lia.
      now rewrite Z.div_add by lia. }
    assert (Hq : 0 <= (stop - start - 1) / us) by (apply Z.div_pos; lia).
    assert (En : n = S (Z.to_nat ((stop - start - 1) / us))).
    { unfold n. rewrite Hn, Z2Nat.inj_add by lia. simpl. lia. }
    rewrite (@drain_forward stop us (Z.to_nat ((stop - start - 1) / us)));
      try lia; auto.
    rewrite En. cbn [seq map]. f_equal. f_equal. f_equal; [lia|].
    rewrite <- seq_shift, map_map. apply map_ext. intros k. lia.
  - apply Z.ltb_ge in E.
    assert (Hn : (stop - start + us - 1) / us <= 0).
    { Z.to_euclidean_division_equations. nia. }
    unfold n. replace (Z.to_nat ((stop - start + us - 1) / us)) with 0%nat by lia.
    reflexivity.
Qed.

Lemma dtrange_forward_witness :
  drain dtrange_next 5 (dtrange 0 10 (Timedelta 3))
  = Some (Ok (map (fun k => 0 + Z.of_nat k * 3)
                  (seq 0 (Z.to_nat ((10 - 0 + 3 - 1) / 3))))).
Proof.
  apply (@dtrange_forward 0 10 (Timedelta 3) 3).
  - reflexivity.
  - reflexivity.
  - reflexivity.
  - lia.
  - vm_compute. lia.
Defined.

Lemma drain_stuck (stop : Z) :
  datetime_in_range stop = true ->
  forall fuel current,
    0 <= current < stop ->
    drain dtrange_next fuel (DtSuspended current stop 0) = None.
Proof.
  intros Hstop. apply datetime_in_range_spec in Hstop.
  induction fuel as [|fuel IH]; intros current Hc; [reflexivity|].
  cbn [drain dtrange_next]. unfold datetime_add.
  rewrite Z.add_0_r.
  replace (datetime_in_range current) with true
    by (symmetry; apply datetime_in_range_spec; lia).
  unfold dtrange_test.
  replace (current <? stop) with true by (symmetry; apply Z.ltb_lt; lia).
  now rewrite IH.
Qed.

(** X23.  With a step of zero and [start] before [stop], the generator of
    [dtrange] never ends: every [next] produces [start] again, and no
    number of [next] calls exhausts it. *)
Theorem dtrange_zero_step (start stop : Z) (delta : delta_arg) :
  datetime_in_range start = true ->
  datetime_in_range stop = true ->
  delta_value delta = Ok 0 ->
  start < stop ->
  dtrange_next (dtrange start stop delta)
  = Yield start (DtSuspended start stop 0)
  /\ dtrange_next (DtSuspended start stop 0)
     = Yield start (DtSuspended start stop 0)
  /\ forall fuel, drain dtrange_next fuel (dtrange start stop delta) = None.
Proof.
  intros Hs He Hdelta Hlt.
  pose proof (proj1 (datetime_in_range_spec start) Hs) as Hs'.
  assert (Htest : dtrange_test start stop 0 = Yield start (DtSuspended start stop 0)).
  { unfold dtrange_test.
    now replace (start <? stop) with true by (symmetry; apply Z.ltb_lt; lia). }
  split; [|split].
  - unfold dtrange. cbn [dtrange_next]. now rewrite Hdelta.
  - cbn [dtrange_next]. unfold datetime_add. rewrite Z.add_0_r, Hs. exact Htest.
  - intros [|fuel]; [reflexivity|]. unfold dtrange. cbn [drain dtrange_next].
    rewrite Hdelta, Htest. rewrite drain_stuck; auto. lia.
Qed.

Lemma dtrange_zero_step_witness :
  dtrange_next (dtrange 0 10 (DeltaDict []))
  = Yield 0 (DtSuspended 0 10 0)
  /\ dtrange_next (DtSuspended 0 10 0) = Yield 0 (DtSuspended 0 10 0)
  /\ forall fuel, drain dtrange_next fuel (dtrange 0 10 (DeltaDict [])) = None.
Proof.
  apply (@dtrange_zero_step 0 10 (DeltaDict [])).
  - reflexivity.
  - reflexivity.
  - reflexivity.
  - lia.
Defined.

(** After [current] was produced with a negative step: the generator goes
    on as long as the next value is a datetime. *)
Lemma drain_backward (stop delta : Z) (n : nat) :
  delta < 0 ->
  datetime_in_range stop = true ->
  forall current fuel,
    0 <= current < stop ->
    Z.of_nat n = current / (- delta) ->
    (n < fuel)%nat ->
    drain dtrange_next fuel (DtSuspended current stop delta)
    = Some (Ok (map (fun k => current + (Z.of_nat k + 1) * delta) (seq 0 n))).
Proof.
  intros Hd Hstop. apply datetime_in_range_spec in Hstop.
  induction n as [|n IH]; intros current fuel Hc Hn Hf.
  - destruct fuel as [|fuel]; [lia|]. cbn [drain dtrange_next].
    assert (Hneg : current + delta < 0).
    { symmetry in Hn. apply Z.div_small_iff in Hn; lia. }
    unfold datetime_add.
    replace (datetime_in_range (current + delta)) with false; [reflexivity|].
    symmetry. destruct (datetime_in_range (current + delta)) eqn:E; [|reflexivity].
    apply datetime_in_range_spec in E. lia.
  - destruct fuel as [|fuel]; [lia|]. cbn [drain dtrange_next].
    assert (Hge : 0 <= current + delta).
    { assert (1 <= current / (- delta)) by lia.
      Z.to_euclidean_division_equations. nia. }
    unfold datetime_add.
    replace (datetime_in_range (current + delta)) with true
      by (symmetry; apply datetime_in_range_spec; lia).
    unfold dtrange_test.
    replace (current + delta <? stop) with true
      by (symmetry; apply Z.ltb_lt; lia).
    rewrite (IH (current + delta) fuel).
    + cbn [seq map]. f_equal. f_equal. f_equal; [lia|].
      rewrite <- seq_shift, map_map. apply map_ext. intros k. lia.
    + lia.
    + replace (current + delta) with (current + (-1) * (- delta)) by lia.
      rewrite Z.div_add by lia. lia.
    + lia.
Qed.

(** X24.  With a negative step and [start] before [stop], consuming
    [dtrange] does not go on for ever and raises nothing: it gives [start],
    [start + delta], ... down to the last value that is still a datetime
    (not before 0001-01-01), where the addition overflows and the handler
    ends the generator. *)
Theorem dtrange_backward (start stop : Z) (delta : delta_arg) (us : Z) :
  datetime_in_range start = true ->
  datetime_in_range stop = true ->
  delta_value delta = Ok us ->
  us < 0 ->
  start < stop ->
  let n := S (Z.to_nat (start / (- us))) in
  forall fuel,
    (n < fuel)%nat ->
    drain dtrange_next fuel (dtrange start stop delta)
    = Some (Ok (map (fun k => start + Z.of_nat k * us) (seq 0 n))).
Proof.
  intros Hs He Hdelta Hus Hlt n fuel Hf. unfold dtrange.
  destruct fuel as [|fuel]; [lia|]. cbn [drain dtrange_next].
  rewrite Hdelta. unfold dtrange_test.
  pose proof (proj1 (datetime_in_range_spec start) Hs) as Hs'.
  replace (start <? stop) with true by (symmetry; apply Z.ltb_lt; lia).
  assert (Hq : 0 <= start / (- us)) by (apply Z.div_pos; lia).
  rewrite (@drain_backward stop us (Z.to_nat (start / (- us)))); try lia; auto.
  unfold n. cbn [seq map]. f_equal. f_equal. f_equal; [lia|].
  rewrite <- seq_shift, map_map. apply map_ext. intros k. lia.
Qed.

Lemma dtrange_backward_witness :
  drain dtrange_next 6 (dtrange 10 20 (Timedelta (-3)))
  = Some (Ok (map (fun k => 10 + Z.of_nat k * (-3))
                  (seq 0 (S (Z.to_nat (10 / (- (-3)))))))).
Proof.
  apply (@dtrange_backward 10 20 (Timedelta (-3)) (-3)).
  - reflexivity.
  - reflexivity.
  - reflexivity.
  - lia.
  - lia.
  - vm_compute. lia.
Defined.

End DtrangeSpec.

(* ------------------------------------------------------------------ *)
(** * The cases of [precision_test.py] *)

Module UnitTests.

Import Precision.

Example test_unique_2 :
  unique_list Z.eq_dec [0; 1; 1; 2; 3; 4; 4; 5; 5; 6; 7; 7; 7]%Z
  = Ok [0; 1; 2; 3; 4; 5; 6; 7]%Z.
Proof. reflexivity. Qed.

Example test_unique_3_to_6 :
  unique_ndarray Z.eq_dec Z.leb [0; 1; 1; 2; 3; 4; 4; 5; 5; 6; 7; 7; 7]%Z
  = Ok (mk_unique_stats
          [0; 1; 2; 3; 4; 5; 6; 7]%Z
          (Matrix [[0; 1; 3; 4; 5; 7; 9; 10]%nat])
          (Vector [0; 1; 1; 2; 3; 4; 4; 5; 5; 6; 7; 7; 7]%nat)
          (Vector [1; 2; 1; 1; 2; 2; 1; 3]%nat)).
Proof. reflexivity. Qed.

Example test_overlap1d_1 :
  overlap1d string_dec ["A"; "B"; "A"]%string ["A"; "D"; "A"]%string
  = Ok [(0%nat, ("A", "A")%string); (2%nat, ("A", "A")%string)].
Proof. reflexivity. Qed.

Example test_overlap1d_2 :
  overlap1d_n_list string_dec ["A"; "B"; "A"]%string ["A"; "D"; "A"]%string 0
  = Some (Ok [[0; 2]%nat; []; [0; 2]%nat]).
Proof. reflexivity. Qed.

Example test_overlap2d :
  overlap2d Z.leb [1; 2; 4; 5]%Z [4; 6; 10; 9; 1]%Z
  = Ok ([0; 2]%nat, [4; 0]%nat).
Proof. reflexivity. Qed.

Example test_unique_1 :
  unique_count Z.eq_dec Z.leb [0; 1; 1; 2; 3; 4; 4; 5; 5; 6; 7; 7; 7]%Z 4
  = Ok [(0, 4); (1, 5); (2, 6); (3, 7); (4, 8); (5, 9); (6, 10); (7, 11)]%Z.
Proof. reflexivity. Qed.

Example test_zero_or_one :
  zero_or_one string_dec ["A"; "B"; "A"; "B"; "C"]%string "A"%string
  = Ok [1; 0; 1; 0; 0]%Z
  /\ zero_or_one string_dec ["A"; "B"; "A"; "B"; "C"]%string "B"%string
     = Ok [0; 1; 0; 1; 0]%Z
  /\ zero_or_one string_dec ["A"; "B"; "A"; "B"; "C"]%string "C"%string
     = Ok [0; 0; 0; 0; 1]%Z.
Proof. repeat split. Qed.

Example test_datenum :
  length (TestData.datenums (TestData.test_range 2025)) = 2530%nat.
Proof. vm_compute. reflexivity. Qed.

(** [assertEqual(x1, 737980.1)], [assertEqual(x2, 751621.9)] and
    [assertEqual(x2 - x1, 13641.800000000047)], on the floats themselves. *)
Example test_prctile :
  let x := map Binary64.PyInt (TestData.datenums (TestData.test_range 2059)) in
  Z.of_nat (length x) = 13992%Z
  /\ exists x1 x2 : float,
       Binary64.prctile x 5 = Ok x1
       /\ Binary64.prctile x 95 = Ok x2
       /\ x1 = 0x1.6857833333333p+19%float
       /\ x2 = 0x1.6f00bcccccccdp+19%float
       /\ PrimFloat.sub x2 x1 = 0x1.aa4e66666668p+13%float.
Proof.
  split; [vm_compute; reflexivity|].
  eexists. eexists. split; [vm_compute; reflexivity|].
  split; [vm_compute; reflexivity|]. repeat split.
Qed.

(** The plotting positions of the 13992 samples of [test_prctile]. *)
Example test_prctile_positions :
  Binary64.positions_ok (Z.to_nat 13992) = true.
Proof. vm_compute. reflexivity. Qed.

End UnitTests.
